(** * BLS labor-statistics dashboard: a shallow embedding of [streamlit_app.py]

    The script is one function, [main], running top to bottom: it posts a
    fixed request, checks the status of the decoded answer, flattens the
    nested series/observation structure into [bls_list], builds a data frame,
    transforms it in place, and renders a view for a selected series and a
    rolling window.

    Conventions of the embedding.
    - A Python [str] is a [string], its characters being code points below
      256; [<=] on [str] is the lexicographic order on character codes,
      [String.leb].
    - A JSON object used as a dictionary is a [gmap string _].
    - A numeric cell of a data frame is a float: not-a-number (pandas'
      missing value), an infinity, or a finite number with its sign,
      mantissa and exponent.  Comparisons, [max], [min] and the text of a
      float are exact.  The floats that the libraries obtain by rounded
      additions -- the mean of a column and the rolling mean -- depend on
      the order and the rounding of these additions inside the libraries;
      they are parameters of the model, [float_lib], as is the reader of
      numeric text.
    - Data frames are lists of row records (the index is the position);
      the frame objects live in a heap, so that a copy and the original are
      told apart.
    - The request itself and failures of the file system are outside the
      model: [main] starts from the decoded answer. *)

From Stdlib Require Import ZArith QArith Qabs String Ascii List Bool Lia.
From Stdlib Require Import Sorting.Sorted Sorting.Permutation DecimalString.
From Stdlib Require Import DecimalZ Qpower Lqa.
From stdpp Require Import base option list gmap strings.

Local Open Scope string_scope.
Local Open Scope list_scope.

(** ** 1. The decoded API response *)

Module Json.

(** [footnotes: [{code?, text?}]]: each footnote is an object with string
    fields. *)
Abbreviation footnote := (gmap string string).

(** An element of [series['data']]. *)
Record observation := {
  year : string;
  period : string;
  value : string;
  footnotes : list footnote
}.

(** An element of [json_data['Results']['series']]. *)
Record series := {
  seriesID : string;
  data : list observation
}.

(** [json_data]. *)
Record response := {
  status : string;
  message : option string;
  Results : list series
}.

End Json.
Import Json.

(** ** 2. Normalizer: the nested loops that fill [bls_list] *)

(** A row [[series_id, year, period, value, footnotes]] of [bls_list]. *)
Record raw_row := {
  r_series_id : string;
  r_year : string;
  r_period : string;
  r_value : string;
  r_footnotes : string
}.

(** [[foot['text'] for foot in item['footnotes'] if foot and 'text' in foot]]:
    a dictionary is truthy when it is not empty. *)
Definition truthy (foot : footnote) : bool := bool_decide (foot ≠ ∅).

Definition has_key (k : string) (foot : footnote) : bool :=
  bool_decide (is_Some (foot !! k)).

Fixpoint footnote_texts (feet : list footnote) : list string :=
  match feet with
  | [] => []
  | foot :: rest =>
      if truthy foot && has_key "text" foot
      then default "" (foot !! "text") :: footnote_texts rest
      else footnote_texts rest
  end.

(** [', '.join(footnote_texts)] *)
Definition join_footnotes (item : observation) : string :=
  String.concat ", " (footnote_texts (footnotes item)).

(** ["M01" <= period <= "M12"] *)
Definition is_monthly (period : string) : bool :=
  String.leb "M01" period && String.leb period "M12".

Definition mk_row (series_id : string) (item : observation) : raw_row :=
  {| r_series_id := series_id;
     r_year := year item;
     r_period := period item;
     r_value := value item;
     r_footnotes := join_footnotes item |}.

(** The inner loop [for item in series['data']], returning the rows it adds
    to [bls_list] (the same rows go to the text table [x]). *)
Fixpoint series_rows (series_id : string) (items : list observation)
  : list raw_row :=
  match items with
  | [] => []
  | item :: rest =>
      if is_monthly (period item)
      then mk_row series_id item :: series_rows series_id rest
      else series_rows series_id rest
  end.

(** The outer loop [for series in json_data['Results']['series']]. *)
Fixpoint bls_list (all_series : list series) : list raw_row :=
  match all_series with
  | [] => []
  | s :: rest => series_rows (seriesID s) (data s) ++ bls_list rest
  end.

(** The flattened table of a response. *)
Definition flatten (json_data : response) : list raw_row :=
  bls_list (Results json_data).

(** The twelve monthly period codes. *)
Definition monthly_codes : list string :=
  ["M01"; "M02"; "M03"; "M04"; "M05"; "M06";
   "M07"; "M08"; "M09"; "M10"; "M11"; "M12"].

(** ** 3. Transformer: lines 68-77, applied to the data frame in place *)

(** *** [int(s)] on a string, as [astype(int)] applies it to each cell

    Surrounding white space is dropped, one sign is allowed, then decimal
    digits with single underscores between them; anything else raises
    [ValueError], and a value outside the 64-bit range raises
    [OverflowError].  [None] stands for the raised exception.  The white
    space of [int] is tab to carriage return, the space, and the code
    points 133 and 160; the separators 28 to 31 are not dropped. *)

Definition is_space (c : ascii) : bool :=
  let n := nat_of_ascii c in
  ((9 <=? n) && (n <=? 13) || (n =? 32) || (n =? 133) || (n =? 160))%nat.

Definition is_digit (c : ascii) : bool :=
  let n := nat_of_ascii c in ((48 <=? n) && (n <=? 57))%nat.

Definition digit_value (c : ascii) : Z := Z.of_nat (nat_of_ascii c) - 48.

Fixpoint lstrip (cs : list ascii) : list ascii :=
  match cs with
  | c :: rest => if is_space c then lstrip rest else cs
  | [] => []
  end.

Definition strip (cs : list ascii) : list ascii :=
  rev (lstrip (rev (lstrip cs))).

(** Digits after the sign; [sep] tells that a digit must come next (at the
    start and after an underscore). *)
Fixpoint int_digits (acc : Z) (sep : bool) (cs : list ascii) : option Z :=
  match cs with
  | [] => if sep then None else Some acc
  | c :: rest =>
      if is_digit c then int_digits (10 * acc + digit_value c) false rest
      else if Ascii.eqb c "_" then
        (if sep then None else int_digits acc true rest)
      else None
  end.

Definition int64_min : Z := - 2 ^ 63.
Definition int64_max : Z := 2 ^ 63 - 1.

Definition in_int64 (z : Z) : bool := (int64_min <=? z)%Z && (z <=? int64_max)%Z.

Definition py_int (s : string) : option Z :=
  let body := strip (list_ascii_of_string s) in
  let signed :=
    match body with
    | "-"%char :: rest => Z.opp <$> int_digits 0 true rest
    | "+"%char :: rest => int_digits 0 true rest
    | _ => int_digits 0 true body
    end in
  z ← signed; if in_int64 z then Some z else None.

(** [s.replace(old, new)] for a one-character [old]: every occurrence is
    replaced. *)
Fixpoint str_replace (old : ascii) (new : string) (s : string) : string :=
  match s with
  | EmptyString => EmptyString
  | String c rest =>
      if Ascii.eqb c old then new ++ str_replace old new rest
      else String c (str_replace old new rest)
  end.

(** [str(n)] for an integer. *)
Definition py_str (z : Z) : string := NilZero.string_of_int (Z.to_int z).

(** A numeric cell is a binary64 float: not-a-number (the missing value),
    an infinity, or the finite number [± m · 2^e]; a zero has [m = 0] and
    keeps its sign. *)
Inductive float64 :=
| NaN
| Inf (negative : bool)
| Fin (negative : bool) (m : N) (e : Z).

Abbreviation cell := float64.


Definition magnitude (m : N) (e : Z) : Q := (inject_Z (Z.of_N m) * 2 ^ e)%Q.

Definition Fin_value (negative : bool) (m : N) (e : Z) : Q :=
  if negative then (- magnitude m e)%Q else magnitude m e.

Definition is_nan (v : cell) : bool :=
  match v with NaN => true | _ => false end.

(** A finite number: neither missing nor infinite. *)
Definition is_number (v : cell) : bool :=
  match v with Fin _ _ _ => true | _ => false end.

(** [a < b] on floats; false as soon as one of them is not-a-number. *)
Definition cell_ltb (a b : cell) : bool :=
  match a, b with
  | NaN, _ | _, NaN => false
  | Inf na, Inf nb => na && negb nb
  | Inf na, Fin _ _ _ => na
  | Fin _ _ _, Inf nb => negb nb
  | Fin s1 m1 e1, Fin s2 m2 e2 =>
      match (Fin_value s1 m1 e1 ?= Fin_value s2 m2 e2)%Q with
      | Lt => true
      | _ => false
      end
  end.

(** A row of the transformed frame, columns
    [Series ID, Year, Value, Month, Year-Month]. *)
Record trow := {
  series_id : string;
  year_ : string;
  value_ : cell;
  month : Z;
  year_month : string
}.

(** [df['Period'].str.replace('M','', regex=False).astype(int)], one cell. *)
Definition month_of_period (p : string) : option Z :=
  py_int (str_replace "M" "" p).

(** [df['Year'].astype(str) + "-" + df['Month'].astype(str)], one cell. *)
Definition year_month_label (y : string) (m : Z) : string :=
  y ++ "-" ++ py_str m.

(** *** [sort_values(by=['Series ID','Year','Month'])]

    The key columns are compared lexicographically; [Series ID] and [Year]
    hold strings, [Month] holds integers.  With several key columns pandas
    sorts with a stable algorithm; a stable sort is determined by the
    order, and insertion sort stands for it. *)

Definition key_compare (a b : trow) : comparison :=
  match String.compare (series_id a) (series_id b) with
  | Eq => match String.compare (year_ a) (year_ b) with
          | Eq => Z.compare (month a) (month b)
          | c => c
          end
  | c => c
  end.

Definition key_leb (a b : trow) : bool :=
  match key_compare a b with Gt => false | _ => true end.

Definition key_eqb (a b : trow) : bool :=
  match key_compare a b with Eq => true | _ => false end.

Fixpoint insert_row (r : trow) (sorted : list trow) : list trow :=
  match sorted with
  | [] => [r]
  | h :: t => if key_leb r h then r :: h :: t else h :: insert_row r t
  end.

Fixpoint sort_values (rows : list trow) : list trow :=
  match rows with
  | [] => []
  | r :: rest => insert_row r (sort_values rest)
  end.

Section Transformer.

(** The reader of numeric text belongs to pandas and is a parameter: the
    cell it reads, or [None] when the text is not numeric.  A column whose
    texts are all integers is a column of integers in pandas; its cells
    are taken here as the floats they convert to, which is what [mean],
    the rolling code and [f"{x:.2f}"] make of them. *)
Variable read_number : string -> option cell.

(** [pd.to_numeric(..., errors='coerce')] on one cell: text that is not
    numeric becomes the missing value instead of raising. *)
Definition to_numeric_coerce (text : string) : cell :=
  match read_number text with
  | Some v => v
  | None => NaN
  end.

(** Lines 68-74 on one row: the [Month] cell may raise, the [Value] cell
    cannot; [Footnotes] and [Period] are dropped. *)
Definition transform_row (r : raw_row) : option trow :=
  m ← month_of_period (r_period r);
  Some {| series_id := r_series_id r;
          year_ := r_year r;
          value_ := to_numeric_coerce (r_value r);
          month := m;
          year_month := year_month_label (r_year r) m |}.

(** The columns are computed for the whole frame before the sort: one
    failing [Month] cell aborts the run. *)
Definition transform_columns (rows : list raw_row) : option (list trow) :=
  mapM transform_row rows.

(** Lines 68-77; [None] is a run aborted by an exception. *)
Definition transform (rows : list raw_row) : option (list trow) :=
  sort_values <$> transform_columns rows.

End Transformer.

(** ** 4. Aggregates of a numeric column *)

(** The cells of a column that are not missing ([skipna=True]). *)
Definition present (vs : list cell) : list cell :=
  List.filter (fun v => negb (is_nan v)) vs.

(** The floats that come out of rounded additions depend on the order in
    which the library adds and on its rounding; they are parameters:
    - [nanmean vs]: what [Series.mean()] returns for a column with at least
      one cell that is not missing, the sum of these cells over their
      count, in floating point;
    - [roll_mean w vs i]: what the rolling code returns at row [i] for the
      column [vs] and the window [w] when the window holds [w] numbers,
      their sum over their count, in floating point. *)
Record float_lib := {
  nanmean : list cell -> cell;
  roll_mean : nat -> list cell -> nat -> cell
}.

Definition greater (acc x : cell) : cell := if cell_ltb acc x then x else acc.
Definition smaller (acc x : cell) : cell := if cell_ltb x acc then x else acc.

(** [Series.max()], [Series.min()], [Series.mean()]: over the cells that
    are not missing, and missing when there is none.  Of cells that
    compare equal -- the zeros [0.0] and [-0.0] -- the one that comes
    first is kept. *)
Definition series_max (vs : list cell) : cell :=
  match present vs with
  | [] => NaN
  | x :: xs => fold_left greater xs x
  end.

Definition series_min (vs : list cell) : cell :=
  match present vs with
  | [] => NaN
  | x :: xs => fold_left smaller xs x
  end.

Definition series_mean (flib : float_lib) (vs : list cell) : cell :=
  match present vs with
  | [] => NaN
  | _ => nanmean flib vs
  end.

(** [Series.rolling(window=w).mean()].  The rolling code first turns the
    infinite cells into missing ones.  The window of row [i] holds the rows
    [max(0, i-w+1) .. i]; [min_periods] defaults to [w]; the result is the
    mean of the window when at least [min_periods] of its cells are not
    missing, and missing otherwise. *)
Definition inf_to_nan (v : cell) : cell :=
  match v with Inf _ => NaN | _ => v end.

Definition window_at (w i : nat) (vs : list cell) : list cell :=
  let start := (i + 1 - w)%nat in
  take (i + 1 - start) (drop start vs).

Definition roll_mean_at (flib : float_lib) (w i : nat) (vs : list cell)
  : cell :=
  let values := map inf_to_nan vs in
  let obs := present (window_at w i values) in
  let nobs := length obs in
  if ((w <=? nobs) && (0 <? nobs))%nat
  then roll_mean flib w values i
  else NaN.

Definition rolling_mean (flib : float_lib) (w : nat) (vs : list cell)
  : list cell :=
  map (fun i => roll_mean_at flib w i vs) (seq 0 (length vs)).

(** *** [f"{x:.2f}"]

    A finite float is rounded to the nearest hundredth, ties to even, and
    written with its sign, its integer part, a point and two digits; the
    missing value is written [nan], an infinity [inf] or [-inf]. *)
Definition round_half_even (q : Q) : Z :=
  let n := Qnum q in
  let d := Z.pos (Qden q) in
  let f := (n / d)%Z in
  let r := (n mod d)%Z in
  if (2 * r <? d)%Z then f
  else if (d <? 2 * r)%Z then (f + 1)%Z
  else if Z.even f then f else (f + 1)%Z.

Definition digit_char (d : Z) : ascii := ascii_of_nat (48 + Z.to_nat d).

Definition two_digits (k : Z) : string :=
  String (digit_char (k / 10)) (String (digit_char (k mod 10)) "").

Definition format_2f (v : cell) : string :=
  match v with
  | NaN => "nan"
  | Inf negative => if negative then "-inf" else "inf"
  | Fin negative m e =>
      let n := round_half_even (magnitude m e * 100) in
      (if negative then "-" else "")
        ++ py_str (n / 100) ++ "." ++ two_digits (n mod 100)
  end.

(** ** 5. The run: screen, files and data-frame objects *)

(** A data-frame object.  [df] first holds the flattened rows and is then
    transformed in place; a frame of transformed rows may carry the extra
    column [Rolling_Avg]. *)
Inductive frame :=
| raw_frame (rows : list raw_row)
| data_frame (rows : list trow) (rolling_avg : option (list cell)).

Definition frame_rows (f : frame) : list trow :=
  match f with data_frame rows _ => rows | raw_frame _ => [] end.

(** What the run shows and writes, oldest first.  Headings written with
    [st.write] carry no data and are left out. *)
Inductive ui_event :=
| st_error (text : string)
| txt_file (name : string) (table : list raw_row)
| csv_file (name : string) (header : list string) (table : list raw_row)
| st_dataframe_raw (head : list raw_row)
| st_dataframe (head : list trow)
| st_pyplot (xs : list string) (lines : list (list cell))
| st_metric (label text : string)
| st_plotly_chart (xs : list string) (ys : list cell)
| st_success (text : string).

Abbreviation loc := positive.

Record world := {
  heap : gmap loc frame;
  shown : list ui_event
}.

(** How a piece of the script ends: with a value, by [st.stop()], or by an
    exception. *)
Inductive outcome (A : Type) :=
| Returned (a : A)
| Stopped
| Raised (exn : string).
Arguments Returned {A} a.
Arguments Stopped {A}.
Arguments Raised {A} exn.

Definition prog (A : Type) : Type := world -> outcome A * world.

Definition ret {A} (a : A) : prog A := fun w => (Returned a, w).

Definition bind {A B} (p : prog A) (k : A -> prog B) : prog B :=
  fun w =>
    match p w with
    | (Returned a, w') => k a w'
    | (Stopped, w') => (Stopped, w')
    | (Raised e, w') => (Raised e, w')
    end.

Notation "x <- p ;; k" := (bind p (fun x => k))
  (at level 100, p at next level, right associativity).
Notation "p ;; k" := (bind p (fun _ => k))
  (at level 100, right associativity).

Definition emit (e : ui_event) : prog unit :=
  fun w => (Returned tt, {| heap := heap w; shown := shown w ++ [e] |}).

Definition st_stop {A} : prog A := fun w => (Stopped, w).

Definition raise {A} (exn : string) : prog A := fun w => (Raised exn, w).

(** A new object lives at an address no object of the heap has. *)
Definition new_frame (f : frame) : prog loc :=
  fun w =>
    let l := fresh (dom (heap w)) in
    (Returned l, {| heap := <[l := f]> (heap w); shown := shown w |}).

Definition get_frame (l : loc) : prog frame :=
  fun w =>
    match heap w !! l with
    | Some f => (Returned f, w)
    | None => (Raised "NameError", w)
    end.

Definition set_frame (l : loc) (f : frame) : prog unit :=
  fun w => (Returned tt, {| heap := <[l := f]> (heap w); shown := shown w |}).

(** ** 6. Presenter: lines 85-130 *)

(** The two sidebar widgets: what the user picks among the options of the
    select box (nothing when there is no option), and the slider value. *)
Record widgets := {
  selectbox : list string -> option string;
  slider : nat
}.

(** [Series.unique()]: the distinct values in order of first appearance. *)
Fixpoint unique_from (seen : list string) (l : list string) : list string :=
  match l with
  | [] => []
  | x :: rest =>
      if bool_decide (x ∈ seen) then unique_from seen rest
      else x :: unique_from (x :: seen) rest
  end.

Definition unique (l : list string) : list string := unique_from [] l.

(** Rows kept by a boolean mask. *)
Fixpoint mask_rows {A} (mask : list bool) (l : list A) : list A :=
  match mask, l with
  | b :: mask', x :: l' =>
      if b then x :: mask_rows mask' l' else mask_rows mask' l'
  | _, _ => []
  end.

(** [df['Series ID'] == selected_series] *)
Definition series_mask (selected_series : option string) (rows : list trow)
  : list bool :=
  map (fun r => bool_decide (Some (series_id r) = selected_series)) rows.

(** [df[mask]]: a new frame with the rows the mask keeps. *)
Definition getitem_mask (df : loc) (mask : list trow -> list bool) : prog loc :=
  f <- get_frame df ;;
  match f with
  | data_frame rows roll =>
      new_frame (data_frame (mask_rows (mask rows) rows)
                            (mask_rows (mask rows) <$> roll))
  | raw_frame _ => raise "KeyError"
  end.

(** [obj.copy()]: a new frame with the same content. *)
Definition copy (obj : loc) : prog loc :=
  f <- get_frame obj ;; new_frame f.

(** [obj['Rolling_Avg'] = column] *)
Definition set_rolling_avg (obj : loc) (column : list cell) : prog unit :=
  f <- get_frame obj ;;
  set_frame obj (data_frame (frame_rows f) (Some column)).

Definition col_value (f : frame) : list cell := map value_ (frame_rows f).
Definition col_year_month (f : frame) : list string :=
  map year_month (frame_rows f).
Definition col_rolling_avg (f : frame) : list cell :=
  match f with data_frame _ (Some c) => c | _ => [] end.

Definition presenter (flib : float_lib) (df : loc) (ui : widgets)
  : prog unit :=
  t <- get_frame df ;;
  let series_list := unique (map series_id (frame_rows t)) in
  let selected_series := selectbox ui series_list in
  view <- getitem_mask df (series_mask selected_series) ;;
  filtered_data <- copy view ;;
  fd <- get_frame filtered_data ;;
  emit (st_pyplot (col_year_month fd) [col_value fd]) ;;
  let max_val := series_max (col_value fd) in
  let min_val := series_min (col_value fd) in
  let avg_val := series_mean flib (col_value fd) in
  emit (st_metric "Max Value" (format_2f max_val)) ;;
  emit (st_metric "Min Value" (format_2f min_val)) ;;
  emit (st_metric "Average Value" (format_2f avg_val)) ;;
  let window_size := slider ui in
  set_rolling_avg filtered_data
    (rolling_mean flib window_size (col_value fd)) ;;
  fd <- get_frame filtered_data ;;
  emit (st_pyplot (col_year_month fd) [col_value fd; col_rolling_avg fd]) ;;
  emit (st_plotly_chart (col_year_month fd) (col_value fd)) ;;
  emit (st_success "All steps completed!").

(** ** 7. [main] *)

Definition csv_header : list string :=
  ["Series ID"; "Year"; "Period"; "Value"; "Footnotes"].

(** Lines 36-53: the loop over the series, writing one text file per series
    and returning [bls_list]. *)
Fixpoint parse_series (all_series : list series) : prog (list raw_row) :=
  match all_series with
  | [] => ret []
  | s :: rest =>
      let x := series_rows (seriesID s) (data s) in
      emit (txt_file (seriesID s ++ ".txt") x) ;;
      more <- parse_series rest ;;
      ret (x ++ more)
  end.

Section Main.

Variable read_number : string -> option cell.
Variable flib : float_lib.

(** Lines 68-77 on the frame object [df]. *)
Definition transform_inplace (df : loc) : prog unit :=
  f <- get_frame df ;;
  match f with
  | raw_frame rows =>
      match transform read_number rows with
      | Some t => set_frame df (data_frame t None)
      | None => raise "ValueError"
      end
  | data_frame _ _ => raise "AttributeError"
  end.

(** [main()], given the decoded answer of the request and the widgets. *)
Definition main (json_data : response) (ui : widgets) : prog unit :=
  (if negb (String.eqb (status json_data) "REQUEST_SUCCEEDED")
   then emit (st_error ("Error in BLS API response: "
                          ++ default "Unknown error" (message json_data))) ;;
        st_stop
   else ret tt) ;;
  rows <- parse_series (Results json_data) ;;
  df <- new_frame (raw_frame rows) ;;
  emit (csv_file "bls_data.csv" csv_header rows) ;;
  emit (st_dataframe_raw (take 5 rows)) ;;
  transform_inplace df ;;
  t <- get_frame df ;;
  emit (st_dataframe (take 5 (frame_rows t))) ;;
  presenter flib df ui.

End Main.

(** The world before the run: no object, nothing shown. *)
Definition start : world := {| heap := ∅; shown := [] |}.

(** ** 8. One reader of numeric text and one float library

    These instantiate the parameters where the model is run on concrete
    answers.  Both round correctly, to the nearest float with ties to
    even; the library adds the cells in order. *)

(** The float nearest to the rational [q >= 0], with the given sign. *)
Definition round64 (negative : bool) (q : Q) : cell :=
  if (Qnum q <=? 0)%Z then Fin negative 0 0
  else
    let e0 := (Z.log2 (Qnum q) - Z.log2 (Z.pos (Qden q)))%Z in
    let e := if Qle_bool (2 ^ e0) q then e0 else (e0 - 1)%Z in
    let ex := Z.max (e - 52) (-1074) in
    let m := round_half_even (q * 2 ^ (- ex)) in
    let '(m, ex) := if (m =? 2 ^ 53)%Z then (2 ^ 52, ex + 1)%Z else (m, ex) in
    if (m =? 0)%Z then Fin negative 0 0
    else if (971 <? ex)%Z then Inf negative
    else Fin negative (Z.to_N m) ex.

Definition round64_signed (q : Q) : cell :=
  if (Qnum q <? 0)%Z then round64 true (- q) else round64 false q.

Definition fl_add (a b : cell) : cell :=
  match a, b with
  | NaN, _ | _, NaN => NaN
  | Inf na, Inf nb => if Bool.eqb na nb then Inf na else NaN
  | Inf na, Fin _ _ _ => Inf na
  | Fin _ _ _, Inf nb => Inf nb
  | Fin s1 m1 e1, Fin s2 m2 e2 =>
      let q := (Fin_value s1 m1 e1 + Fin_value s2 m2 e2)%Q in
      if (Qnum q =? 0)%Z then Fin (s1 && s2) 0 0 else round64_signed q
  end.

Definition fl_div (a b : cell) : cell :=
  match a, b with
  | NaN, _ | _, NaN => NaN
  | Inf _, Inf _ => NaN
  | Inf na, Fin s _ _ => Inf (xorb na s)
  | Fin s _ _, Inf nb => Fin (xorb s nb) 0 0
  | Fin s1 m1 e1, Fin s2 m2 e2 =>
      if (m2 =? 0)%N then (if (m1 =? 0)%N then NaN else Inf (xorb s1 s2))
      else round64 (xorb s1 s2) (magnitude m1 e1 / magnitude m2 e2)
  end.

Definition float_of_nat (n : nat) : cell :=
  round64 false (inject_Z (Z.of_nat n)).

Definition ordered_mean (xs : list cell) : cell :=
  fl_div (fold_left fl_add xs (Fin false 0 0)) (float_of_nat (length xs)).

(** A float library that adds the cells in order. *)
Definition ordered_lib : float_lib :=
  {| nanmean := fun vs => ordered_mean (present vs);
     roll_mean := fun w vs i => ordered_mean (window_at w i vs) |}.

Definition to_lower (c : ascii) : ascii :=
  let n := nat_of_ascii c in
  if ((65 <=? n) && (n <=? 90))%nat then ascii_of_nat (n + 32) else c.

Fixpoint read_digits (acc : Z) (n : nat) (cs : list ascii)
  : Z * nat * list ascii :=
  match cs with
  | c :: rest =>
      if is_digit c then read_digits (10 * acc + digit_value c) (S n) rest
      else (acc, n, cs)
  | [] => (acc, n, [])
  end.

Definition read_sign (cs : list ascii) : bool * list ascii :=
  match cs with
  | "-"%char :: r => (true, r)
  | "+"%char :: r => (false, r)
  | _ => (false, cs)
  end.

(** Decimal text with an optional sign, fraction and exponent, and the
    words [inf], [infinity] and [nan]; any other text is not numeric. *)
Definition read_decimal (s : string) : option cell :=
  let cs := map to_lower (strip (list_ascii_of_string s)) in
  let '(neg, body) := read_sign cs in
  let word := string_of_list_ascii body in
  if String.eqb word "inf" || String.eqb word "infinity" then Some (Inf neg)
  else if String.eqb word "nan" then Some NaN
  else
    let '(ip, n1, rest) := read_digits 0 0 body in
    let '(fp, n2, rest) :=
      match rest with
      | "."%char :: r => read_digits 0 0 r
      | _ => (0%Z, 0%nat, rest)
      end in
    let exponent :=
      match rest with
      | [] => Some 0%Z
      | "e"%char :: r =>
          let '(eneg, r) := read_sign r in
          let '(ev, n3, r) := read_digits 0 0 r in
          match r with
          | [] => if (n3 =? 0)%nat then None
                  else Some (if eneg then (- ev)%Z else ev)
          | _ => None
          end
      | _ => None
      end in
    match exponent with
    | Some ex =>
        if (n1 + n2 =? 0)%nat then None
        else Some (round64 neg
                     (inject_Z (ip * 10 ^ Z.of_nat n2 + fp)
                      * inject_Z 10 ^ (ex - Z.of_nat n2)))
    | None => None
    end.

(** ** 9. Notions the properties are stated with *)

(** The footnote texts that are not the empty string, in order. *)
Definition nonempty_texts (feet : list footnote) : list string :=
  filter (fun t => t ≠ "") (omap (fun foot : footnote => foot !! "text") feet).

(** A three-character code: one character followed by two digits, the shape
    of the period codes of the statistics service. *)
Definition code_shaped (p : string) : Prop :=
  ∃ c d1 d2, p = String c (String d1 (String d2 ""))
             ∧ is_digit d1 = true ∧ is_digit d2 = true.

(** Observations of a series that pass the monthly filter. *)
Definition monthly_observations (s : series) : list observation :=
  List.filter (fun item => is_monthly (period item)) (data s).

(** Rows of a table that belong to a series. *)
Definition rows_of (sid : string) (table : list raw_row) : list raw_row :=
  filter (fun r => r_series_id r = sid) table.

(** The tables written to CSV files during a run, oldest first. *)
Definition csv_tables (w : world) : list (list raw_row) :=
  omap (fun e => match e with csv_file _ _ t => Some t | _ => None end)
       (shown w).

(** A row is kept exactly when its
    period is one of the twelve codes. *)
Definition kept_iff_monthly_code (json_data : response) : Prop :=
  ∀ s item, s ∈ Results json_data → item ∈ data s →
    (mk_row (seriesID s) item ∈ flatten json_data
     ↔ period item ∈ monthly_codes).

(** The joined texts are those that
    are not empty. *)
Definition joins_nonempty_texts (item : observation) : Prop :=
  join_footnotes item = String.concat ", " (nonempty_texts (footnotes item)).

(** The order of the sort keys. *)
Definition key_le (a b : trow) : Prop := key_leb a b = true.

(** Within a series: a strictly smaller (year, month) pair, the year
    compared as the column holds it, as a string. *)
Definition year_month_lt (a b : trow) : Prop :=
  String.compare (year_ a) (year_ b) = Lt
  ∨ (year_ a = year_ b ∧ (month a < month b)%Z).

(** Rows of the transformed table that belong to the selected series. *)
Definition selected_rows (ui : widgets) (t : list trow) : list trow :=
  mask_rows (series_mask (selectbox ui (unique (map series_id t))) t) t.

(** What the presenter shows for a transformed table. *)
Definition presenter_shows (flib : float_lib) (ui : widgets) (t : list trow)
  : list ui_event :=
  let rows := selected_rows ui t in
  let vs := map value_ rows in
  let xs := map year_month rows in
  [ st_pyplot xs [vs];
    st_metric "Max Value" (format_2f (series_max vs));
    st_metric "Min Value" (format_2f (series_min vs));
    st_metric "Average Value" (format_2f (series_mean flib vs));
    st_pyplot xs [vs; rolling_mean flib (slider ui) vs];
    st_plotly_chart xs vs;
    st_success "All steps completed!" ].

(** The text files written for the series of an answer. *)
Definition txt_files (all_series : list series) : list ui_event :=
  map (fun s => txt_file (seriesID s ++ ".txt")
                         (series_rows (seriesID s) (data s))) all_series.

(** The texts shown by [st.error] during a run, oldest first. *)
Definition error_texts (w : world) : list string :=
  omap (fun e => match e with st_error text => Some text | _ => None end)
       (shown w).

(** An event that carries a table: a file or a displayed frame. *)
Definition is_table (e : ui_event) : bool :=
  match e with
  | txt_file _ _ | csv_file _ _ _ | st_dataframe_raw _ | st_dataframe _ => true
  | _ => false
  end.

(** The error shown is the message of the service, or [fallback] when
    the answer has none. *)
Definition shows_server_message (fallback : string) (json_data : response)
  : Prop :=
  ∀ read_number flib ui,
    error_texts (snd (main read_number flib json_data ui start))
    = [default fallback (message json_data)].

(** [s] without its first character when that character is [c]. *)
Definition strip_leading (c : ascii) (s : string) : string :=
  match s with
  | String a rest => if Ascii.eqb a c then rest else s
  | EmptyString => EmptyString
  end.

(** Whether the character [c] occurs in [s]. *)
Fixpoint occurs (c : ascii) (s : string) : bool :=
  match s with
  | String a rest => Ascii.eqb a c || occurs c rest
  | EmptyString => false
  end.


(** A row of the transformed table comes from a flattened row: same series
    and year, the month of its period, the value read from its text, and
    the missing value when the text is not numeric. *)
Definition coerced_from (read_number : string -> option cell)
  (r : raw_row) (c : trow)
  : Prop :=
  series_id c = r_series_id r ∧ year_ c = r_year r
  ∧ month_of_period (r_period r) = Some (month c)
  ∧ value_ c = to_numeric_coerce read_number (r_value r)
  ∧ (read_number (r_value r) = None → value_ c = NaN).







(** Cells that hold the same number, the same infinity, or are both
    missing. *)
Definition same_cell (a b : cell) : Prop :=
  match a, b with
  | Fin s1 m1 e1, Fin s2 m2 e2 => (Fin_value s1 m1 e1 == Fin_value s2 m2 e2)%Q
  | Inf na, Inf nb => na = nb
  | NaN, NaN => True
  | _, _ => False
  end.


(** [m] is the largest (the smallest) of the cells [xs]: one of them, and
    none of them is above (below) it. *)
Definition is_maximum (m : cell) (xs : list cell) : Prop :=
  m ∈ xs ∧ ∀ x, x ∈ xs → cell_ltb m x = false.

Definition is_minimum (m : cell) (xs : list cell) : Prop :=
  m ∈ xs ∧ ∀ x, x ∈ xs → cell_ltb x m = false.


(** The texts shown as metrics during a run, with their labels. *)
Definition metrics (w : world) : list (string * string) :=
  omap (fun e => match e with
                 | st_metric label text => Some (label, text)
                 | _ => None
                 end) (shown w).

(** A text made of decimal digits only, and the number it denotes. *)
Fixpoint all_digits (s : string) : bool :=
  match s with
  | String c rest => is_digit c && all_digits rest
  | EmptyString => true
  end.

Fixpoint decimal_value (acc : Z) (s : string) : Z :=
  match s with
  | String c rest => decimal_value (10 * acc + digit_value c) rest
  | EmptyString => acc
  end.

(** The (year, month) pair of [a] is smaller than that of [b], the years
    being read as the numbers their digits denote. *)
Definition numeric_year_month_lt (a b : trow) : Prop :=
  all_digits (year_ a) = true ∧ all_digits (year_ b) = true
  ∧ ((decimal_value 0 (year_ a) < decimal_value 0 (year_ b))%Z
     ∨ (decimal_value 0 (year_ a) = decimal_value 0 (year_ b)
        ∧ (month a < month b)%Z)).

(** Of two rows of a series, the one with the smaller (year, month) pair,
    years read as numbers, comes first. *)
Definition sorted_by_year_number (t : list trow) : Prop :=
  ∀ i j a b, t !! i = Some a → t !! j = Some b →
    series_id a = series_id b → numeric_year_month_lt a b → (i < j)%nat.

(** The address that [df] gets in a run from the world [w]. *)
Definition df_address (w : world) : loc := fresh (dom (heap w)).

(** ** 10. Sample answers of the service *)

Definition obs (y p v : string) (feet : list footnote) : observation :=
  {| year := y; period := p; value := v; footnotes := feet |}.

(** One series with the codes [M01], [M13], [S01], [M12]. *)
Definition answer_codes : response :=
  {| status := "REQUEST_SUCCEEDED"; message := None;
     Results := [ {| seriesID := "CUUR0000SA0";
                     data := [ obs "2011" "M01" "220.223" [∅];
                               obs "2011" "M13" "224.939" [∅];
                               obs "2011" "S01" "223.598" [∅];
                               obs "2011" "M12" "225.672" [∅] ] |} ] |}.

(** One observation whose period is ["M1"]. *)
Definition answer_short_code : response :=
  {| status := "REQUEST_SUCCEEDED"; message := None;
     Results := [ {| seriesID := "CUUR0000SA0";
                     data := [ obs "2011" "M1" "220.223" [∅] ] |} ] |}.

(** An observation with two footnotes, the first with an empty text. *)
Definition item_empty_text : observation :=
  obs "2011" "M01" "220.223" [ {[ "text" := "" ]}; {[ "text" := "a" ]} ].

(** An answer that reports a failure, with a message. *)
Definition answer_failed : response :=
  {| status := "REQUEST_NOT_PROCESSED";
     message := Some "daily threshold reached";
     Results := [] |}.

(** A successful answer with a value that is not numeric, ["-"]. *)
Definition answer_dash : response :=
  {| status := "REQUEST_SUCCEEDED"; message := None;
     Results := [ {| seriesID := "CUUR0000SA0";
                     data := [ obs "2012" "M02" "227.663" [∅];
                               obs "2011" "M03" "-" [∅];
                               obs "2011" "M01" "220.223" [∅] ] |} ] |}.


Definition numbers (zs : list Z) : list cell :=
  map (fun z => round64_signed (inject_Z z)) zs.

(** The transformed table of [answer_dash]. *)
Definition table_dash : list trow :=
  default [] (transform read_decimal (flatten answer_dash)).

(** A world whose only object is that table. *)
Definition world_dash : world :=
  {| heap := {[ 1%positive := data_frame table_dash None ]}; shown := [] |}.

(** A successful answer with the years 999 and 1000. *)
Definition answer_years : response :=
  {| status := "REQUEST_SUCCEEDED"; message := None;
     Results := [ {| seriesID := "CUUR0000SA0";
                     data := [ obs "999" "M01" "1.5" [∅];
                               obs "1000" "M01" "2.5" [∅] ] |} ] |}.

Definition table_years : list trow :=
  default [] (transform read_decimal (flatten answer_years)).

Definition use_first : widgets :=
  {| selectbox := fun options => head options; slider := 3 |}.

(** ** 11. Further notions *)

(** The text files written during a run, with their names, oldest first. *)
Definition txt_tables (w : world) : list (string * list raw_row) :=
  omap (fun e => match e with txt_file name t => Some (name, t) | _ => None end)
       (shown w).

(** The 256 characters. *)
Definition all_ascii : list ascii := map ascii_of_nat (seq 0 256).

(** For a period made of ["M"] and two characters: if the filter keeps it
    and its month can be derived, the month is between 0 and 12, and at
    least 1 when the last character is a digit. *)
Definition month_in_year (a b : ascii) : bool :=
  let p := String "M" (String a (String b "")) in
  if is_monthly p then
    match month_of_period p with
    | Some m => (0 <=? m)%Z && (m <=? 12)%Z && (negb (is_digit b) || (1 <=? m)%Z)
    | None => true
    end
  else true.

(** A successful answer with a period the filter keeps and [int] rejects. *)
Definition answer_bad_period : response :=
  {| status := "REQUEST_SUCCEEDED"; message := None;
     Results := [ {| seriesID := "CUUR0000SA0";
                     data := [ obs "2011" "M01" "220.223" [∅];
                               obs "2011" "M0A" "221.309" [∅] ] |} ] |}.

(** A successful answer that lists the same series twice. *)
Definition answer_twice : response :=
  {| status := "REQUEST_SUCCEEDED"; message := None;
     Results := [ {| seriesID := "CUUR0000SA0";
                     data := [ obs "2011" "M01" "220.223" [∅] ] |};
                  {| seriesID := "CUUR0000SA0";
                     data := [ obs "2012" "M01" "226.665" [∅] ] |} ] |}.

(** * Properties *)

(** ** Normalizer *)

Lemma series_rows_elem sid items r :
  r ∈ series_rows sid items
  ↔ ∃ item, item ∈ items ∧ is_monthly (period item) = true ∧ r = mk_row sid item.
Proof.
  induction items as [|item rest IH]; simpl.
  - split; [intros H; inversion H | intros (? & H & _); inversion H].
  - destruct (is_monthly (period item)) eqn:Hm.
    + rewrite elem_of_cons, IH. split.
      * intros [-> | (i & Hi & Hp & ->)].
        -- exists item. split; [left | auto].
        -- exists i. split; [by right | auto].
      * intros (i & Hi & Hp & ->). apply elem_of_cons in Hi as [-> | Hi].
        -- by left.
        -- right. eauto.
    + rewrite IH. split.
      * intros (i & Hi & Hp & ->). exists i. split; [by right | auto].
      * intros (i & Hi & Hp & ->). apply elem_of_cons in Hi as [-> | Hi].
        -- congruence.
        -- eauto.
Qed.

Lemma bls_list_elem all_series r :
  r ∈ bls_list all_series
  ↔ ∃ s, s ∈ all_series ∧ r ∈ series_rows (seriesID s) (data s).
Proof.
  induction all_series as [|s rest IH]; simpl.
  - split; [intros H; inversion H | intros (? & H & _); inversion H].
  - rewrite elem_of_app, IH. split.
    + intros [H | (s' & Hs' & H)].
      * exists s. split; [left | done].
      * exists s'. split; [by right | done].
    + intros (s' & Hs' & H). apply elem_of_cons in Hs' as [-> | Hs'].
      * by left.
      * right. eauto.
Qed.

Lemma series_rows_filter sid items :
  series_rows sid items
  = map (mk_row sid) (List.filter (fun item => is_monthly (period item)) items).
Proof.
  induction items as [|item rest IH]; simpl; [done|].
  destruct (is_monthly (period item)); simpl; by rewrite IH.
Qed.

Lemma is_monthly_spec p :
  is_monthly p = true ↔ String.leb "M01" p = true ∧ String.leb p "M12" = true.
Proof. unfold is_monthly. apply andb_true_iff. Qed.

(** A period in the range starts with the letter of both bounds. *)
Lemma is_monthly_head p :
  is_monthly p = true → ∃ rest, p = String "M" rest.
Proof.
  unfold is_monthly, String.leb. intros [H1 H2]%andb_true_iff.
  destruct p as [|c rest]; [done|]. exists rest. f_equal.
  simpl in H1, H2.
  destruct (Ascii.compare "M" c) eqn:E1.
  - symmetry. by apply Ascii.compare_eq_iff.
  - rewrite Ascii.compare_antisym, E1 in H2. simpl in H2. done.
  - done.
Qed.

Lemma is_digit_cases d :
  is_digit d = true →
  d ∈ ["0"; "1"; "2"; "3"; "4"; "5"; "6"; "7"; "8"; "9"]%char.
Proof.
  destruct d as [[] [] [] [] [] [] [] []]; vm_compute; intros H;
    try discriminate H; set_solver.
Qed.

Lemma monthly_codes_range p : p ∈ monthly_codes → is_monthly p = true.
Proof.
  unfold monthly_codes. intros H.
  repeat (apply elem_of_cons in H as [-> | H]; [reflexivity|]).
  inversion H.
Qed.

Lemma code_shaped_range p :
  code_shaped p → (is_monthly p = true ↔ p ∈ monthly_codes).
Proof.
  intros (c & d1 & d2 & -> & H1 & H2). split.
  - intros H. destruct (is_monthly_head _ H) as [rest E].
    injection E as E1 E2. subst c. clear E2 rest.
    apply is_digit_cases in H1, H2. revert H.
    unfold monthly_codes.
    repeat (apply elem_of_cons in H1 as [-> | H1]);
      try (by inversion H1);
      repeat (apply elem_of_cons in H2 as [-> | H2]);
      try (by inversion H2);
      vm_compute; intros H; try discriminate H; set_solver.
  - apply monthly_codes_range.
Qed.

(** C1, counterexample: the period ["M1"] lies between ["M01"] and ["M12"]
    in the order of strings, so its row is kept although ["M1"] is none of
    the twelve codes. *)
Lemma short_code_is_kept : ¬ kept_iff_monthly_code answer_short_code.
Proof.
  intros H.
  pose (s := {| seriesID := "CUUR0000SA0";
                data := [obs "2011" "M1" "220.223" [∅]] |}).
  destruct (H s (obs "2011" "M1" "220.223" [∅])) as [Hkept _].
  - apply list_elem_of_here.
  - apply list_elem_of_here.
  - assert (Hin : "M1" ∈ monthly_codes).
    { apply Hkept. vm_compute. apply list_elem_of_here. }
    unfold monthly_codes in Hin.
    repeat (apply elem_of_cons in Hin as [Hin | Hin]; [discriminate Hin|]).
    inversion Hin.
Qed.

(** C1, amended: a row is in the flattened table exactly when its period
    lies between ["M01"] and ["M12"] in the lexicographic order of strings;
    for a period code made of one character and two digits this is the same
    as being one of ["M01"] ... ["M12"]. *)
Theorem flatten_keeps_period_range json_data s item :
  s ∈ Results json_data → item ∈ data s →
  (mk_row (seriesID s) item ∈ flatten json_data
   ↔ String.leb "M01" (period item) = true
     ∧ String.leb (period item) "M12" = true)
  ∧ (code_shaped (period item) →
     (mk_row (seriesID s) item ∈ flatten json_data
      ↔ period item ∈ monthly_codes)).
Proof.
  intros Hs Hitem.
  assert (Hiff : mk_row (seriesID s) item ∈ flatten json_data
                 ↔ is_monthly (period item) = true).
  { unfold flatten. rewrite bls_list_elem. split.
    - intros (s' & _ & Hr). apply series_rows_elem in Hr as (i & _ & Hm & E).
      injection E as _ _ Ep _ _. by rewrite Ep.
    - intros Hm. exists s. split; [done|].
      apply series_rows_elem. eauto. }
  split.
  - by rewrite Hiff, is_monthly_spec.
  - intros Hshape. by rewrite Hiff, code_shaped_range.
Qed.

Lemma flatten_keeps_period_range_witness :
  let s := {| seriesID := "CUUR0000SA0";
              data := [obs "2011" "M1" "220.223" [∅]] |} in
  let item := obs "2011" "M1" "220.223" [∅] in
  (mk_row (seriesID s) item ∈ flatten answer_short_code
   ↔ String.leb "M01" (period item) = true
     ∧ String.leb (period item) "M12" = true)
  ∧ (code_shaped (period item) →
     (mk_row (seriesID s) item ∈ flatten answer_short_code
      ↔ period item ∈ monthly_codes)).
Proof.
  intros s item.
  apply (flatten_keeps_period_range answer_short_code s item).
  - apply list_elem_of_here.
  - apply list_elem_of_here.
Defined.

(** The example of C1: the rows of ["M13"] and ["S01"] are left out, their
    ["M01"] and ["M12"] siblings stay. *)
Example flatten_answer_codes :
  map r_period (flatten answer_codes) = ["M01"; "M12"].
Proof. reflexivity. Qed.


(** C5, counterexample: a footnote whose text is the empty string is joined
    like any other. *)
Lemma empty_text_is_joined : ¬ joins_nonempty_texts item_empty_text.
Proof. unfold joins_nonempty_texts. vm_compute. discriminate. Qed.

Lemma footnote_texts_omap feet :
  footnote_texts feet = omap (fun foot : footnote => foot !! "text") feet.
Proof.
  induction feet as [|foot rest IH]; simpl; [done|].
  unfold truthy, has_key.
  destruct (foot !! "text") as [t|] eqn:E.
  - rewrite bool_decide_eq_true_2.
    + rewrite bool_decide_eq_true_2 by eauto. simpl. by rewrite IH.
    + intros ->. by rewrite lookup_empty in E.
  - rewrite (bool_decide_eq_false_2 (is_Some None)).
    + rewrite andb_false_r. done.
    + intros [? ?]. done.
Qed.

(** C5, amended: the footnote field is the texts of the footnotes that have
    one, in order and joined with [", "] -- a text that is the empty string
    included; with an empty footnote list the field is the empty string.
    [join_footnotes] is a total function: no footnote list makes it fail. *)
Theorem footnote_field_joins_texts :
  (∀ item, join_footnotes item
           = String.concat ", "
               (omap (fun foot : footnote => foot !! "text") (footnotes item)))
  ∧ (∀ y p v, join_footnotes (obs y p v []) = "")
  ∧ (∀ sid item, r_footnotes (mk_row sid item) = join_footnotes item).
Proof.
  split; [|split].
  - intros item. unfold join_footnotes. by rewrite footnote_texts_omap.
  - reflexivity.
  - reflexivity.
Qed.

(** Where no footnote text is the empty string, the field is the join of
    the texts that are not empty. *)
Lemma footnote_field_nonempty item :
  Forall (fun foot : footnote => foot !! "text" ≠ Some "") (footnotes item) →
  joins_nonempty_texts item.
Proof.
  unfold joins_nonempty_texts, join_footnotes, nonempty_texts.
  rewrite footnote_texts_omap. intros H. f_equal.
  induction H as [|foot rest Hf _ IH]; simpl; [done|].
  destruct (foot !! "text") as [t|] eqn:E; [|done].
  rewrite filter_cons_True by congruence. f_equal. apply IH.
Qed.

(** ** The order of strings and of sort keys *)

Lemma ascii_compare_refl c : Ascii.compare c c = Eq.
Proof. unfold Ascii.compare. apply N.compare_refl. Qed.

Lemma ascii_compare_lt_trans a b c :
  Ascii.compare a b = Lt → Ascii.compare b c = Lt → Ascii.compare a c = Lt.
Proof.
  unfold Ascii.compare. rewrite !N.compare_lt_iff. apply N.lt_trans.
Qed.

Lemma string_compare_refl s : String.compare s s = Eq.
Proof.
  induction s as [|c s IH]; simpl; [done|]. by rewrite ascii_compare_refl.
Qed.

Lemma string_compare_eq s t : String.compare s t = Eq ↔ s = t.
Proof.
  split; [apply String.compare_eq_iff | intros ->; apply string_compare_refl].
Qed.

Lemma string_compare_lt_trans s t u :
  String.compare s t = Lt → String.compare t u = Lt → String.compare s u = Lt.
Proof.
  revert t u. induction s as [|a s IH]; intros [|b t] [|c u]; simpl; try done.
  destruct (Ascii.compare a b) eqn:Eab; try done.
  - apply Ascii.compare_eq_iff in Eab as ->.
    destruct (Ascii.compare b c); try done. apply IH.
  - destruct (Ascii.compare b c) eqn:Ebc; try done.
    + apply Ascii.compare_eq_iff in Ebc as <-. by rewrite Eab.
    + by rewrite (ascii_compare_lt_trans _ _ _ Eab Ebc).
Qed.

Lemma key_compare_antisym a b : key_compare b a = CompOpp (key_compare a b).
Proof.
  unfold key_compare.
  rewrite (String.compare_antisym (series_id a)).
  destruct (String.compare (series_id b) (series_id a)); simpl; try done.
  rewrite (String.compare_antisym (year_ a)).
  destruct (String.compare (year_ b) (year_ a)); simpl; try done.
  rewrite (Z.compare_antisym (month b)).
  by destruct (month b ?= month a)%Z.
Qed.

Lemma key_compare_eq a b :
  key_compare a b = Eq
  ↔ series_id a = series_id b ∧ year_ a = year_ b ∧ month a = month b.
Proof.
  unfold key_compare. split.
  - destruct (String.compare (series_id a) (series_id b)) eqn:E1; try done.
    destruct (String.compare (year_ a) (year_ b)) eqn:E2; try done.
    intros E3. apply string_compare_eq in E1, E2.
    by apply Z.compare_eq_iff in E3.
  - intros (-> & -> & ->).
    by rewrite !string_compare_refl, Z.compare_refl.
Qed.

Lemma key_compare_eq_l a b c :
  key_compare a b = Eq → key_compare a c = key_compare b c.
Proof.
  intros (E1 & E2 & E3)%key_compare_eq. unfold key_compare.
  by rewrite E1, E2, E3.
Qed.

Lemma key_compare_eq_r a b c :
  key_compare b c = Eq → key_compare a b = key_compare a c.
Proof.
  intros (E1 & E2 & E3)%key_compare_eq. unfold key_compare.
  by rewrite E1, E2, E3.
Qed.

Lemma key_compare_lt_trans a b c :
  key_compare a b = Lt → key_compare b c = Lt → key_compare a c = Lt.
Proof.
  unfold key_compare.
  destruct (String.compare (series_id a) (series_id b)) eqn:S1; try done.
  - apply string_compare_eq in S1. rewrite S1.
    destruct (String.compare (series_id b) (series_id c)) eqn:S2; try done.
    destruct (String.compare (year_ a) (year_ b)) eqn:Y1; try done.
    + apply string_compare_eq in Y1. rewrite Y1.
      destruct (String.compare (year_ b) (year_ c)) eqn:Y2; try done.
      rewrite !Z.compare_lt_iff. apply Z.lt_trans.
    + destruct (String.compare (year_ b) (year_ c)) eqn:Y2; try done.
      * apply string_compare_eq in Y2. by rewrite <- Y2, Y1.
      * by rewrite (string_compare_lt_trans _ _ _ Y1 Y2).
  - intros _.
    destruct (String.compare (series_id b) (series_id c)) eqn:S2; try done.
    + apply string_compare_eq in S2. by rewrite <- S2, S1.
    + by rewrite (string_compare_lt_trans _ _ _ S1 S2).
Qed.

Lemma key_leb_total a b : key_leb a b = false → key_leb b a = true.
Proof.
  unfold key_leb. rewrite (key_compare_antisym a b).
  by destruct (key_compare a b).
Qed.

Lemma key_le_trans a b c : key_le a b → key_le b c → key_le a c.
Proof.
  unfold key_le, key_leb.
  destruct (key_compare a b) eqn:Eab; try done; intros _.
  - by rewrite (key_compare_eq_l _ _ c Eab).
  - destruct (key_compare b c) eqn:Ebc; try done; intros _.
    + by rewrite <- (key_compare_eq_r a _ _ Ebc), Eab.
    + by rewrite (key_compare_lt_trans _ _ _ Eab Ebc).
Qed.

(** ** [sort_values]: sorted, a permutation, stable *)

Lemma insert_row_perm r l : insert_row r l ≡ₚ r :: l.
Proof.
  induction l as [|h t IH]; simpl; [done|].
  destruct (key_leb r h); [done|].
  rewrite IH. apply Permutation_swap.
Qed.

Lemma sort_values_perm l : sort_values l ≡ₚ l.
Proof.
  induction l as [|r l IH]; simpl; [done|].
  by rewrite insert_row_perm, IH.
Qed.

Lemma insert_row_sorted r l :
  StronglySorted key_le l → StronglySorted key_le (insert_row r l).
Proof.
  induction 1 as [|h t Hs IH Hall]; simpl.
  - repeat constructor.
  - destruct (key_leb r h) eqn:E.
    + constructor; [by constructor|].
      constructor; [done|].
      eapply Forall_impl; [exact Hall|].
      intros x Hx. by apply key_le_trans with h.
    + constructor; [done|].
      rewrite insert_row_perm. constructor; [|done].
      by apply key_leb_total.
Qed.

Lemma sort_values_sorted l : StronglySorted key_le (sort_values l).
Proof.
  induction l as [|r l IH]; simpl; [constructor|].
  by apply insert_row_sorted.
Qed.

Lemma insert_row_stable k r l :
  List.filter (key_eqb k) (insert_row r l) = List.filter (key_eqb k) (r :: l).
Proof.
  induction l as [|h t IH]; [done|].
  cbn [insert_row]. destruct (key_leb r h) eqn:E; [done|].
  cbn [List.filter] in *. rewrite IH.
  destruct (key_eqb k r) eqn:Er; [|done].
  destruct (key_eqb k h) eqn:Eh; [|done].
  exfalso. unfold key_eqb, key_leb in *.
  destruct (key_compare k r) eqn:Ckr; try done.
  destruct (key_compare k h) eqn:Ckh; try done.
  rewrite <- (key_compare_eq_l _ _ h Ckr), Ckh in E. done.
Qed.

Lemma sort_values_stable k l :
  List.filter (key_eqb k) (sort_values l) = List.filter (key_eqb k) l.
Proof.
  induction l as [|r l IH]; [done|].
  cbn [sort_values]. rewrite insert_row_stable.
  cbn [List.filter]. by rewrite IH.
Qed.

Lemma sorted_lookup_le (l : list trow) i j a b :
  StronglySorted key_le l → (i < j)%nat →
  l !! i = Some a → l !! j = Some b → key_le a b.
Proof.
  intros Hs. revert i j. induction Hs as [|h t Hs IH Hall]; intros i j Hij Ha Hb.
  - done.
  - destruct j as [|j]; [lia|]. simpl in Hb.
    destruct i as [|i]; simpl in Ha.
    + injection Ha as ->. rewrite Forall_forall in Hall. apply Hall.
      by eapply list_elem_of_lookup_2.
    + apply (IH i j); [lia|done|done].
Qed.

(** ** The order of years *)

Lemma decimal_value_acc acc s :
  decimal_value acc s
  = (acc * 10 ^ Z.of_nat (String.length s) + decimal_value 0 s)%Z.
Proof.
  revert acc. induction s as [|c s IH]; intros acc.
  - simpl. lia.
  - cbn [decimal_value String.length].
    rewrite (IH (10 * acc + digit_value c)%Z), (IH (10 * 0 + digit_value c)%Z).
    rewrite Nat2Z.inj_succ, Z.pow_succ_r by lia. ring.
Qed.

Lemma is_digit_value c : is_digit c = true → (0 <= digit_value c <= 9)%Z.
Proof.
  unfold is_digit, digit_value. intros [H1 H2]%andb_true_iff.
  apply Nat.leb_le in H1, H2. lia.
Qed.

Lemma decimal_value_bound s :
  all_digits s = true →
  (0 <= decimal_value 0 s < 10 ^ Z.of_nat (String.length s))%Z.
Proof.
  induction s as [|c s IH].
  - simpl. lia.
  - cbn [all_digits decimal_value String.length].
    intros [Hc Hs]%andb_true_iff. specialize (IH Hs).
    apply is_digit_value in Hc.
    rewrite decimal_value_acc, Nat2Z.inj_succ, Z.pow_succ_r by lia. nia.
Qed.

Lemma digit_compare a b :
  Ascii.compare a b = (digit_value a ?= digit_value b)%Z.
Proof.
  unfold Ascii.compare, digit_value, nat_of_ascii.
  rewrite !N_nat_Z, <- N2Z.inj_compare.
  set (x := Z.of_N (N_of_ascii a)). set (y := Z.of_N (N_of_ascii b)).
  symmetry. destruct (x ?= y)%Z eqn:E.
  - apply Z.compare_eq_iff in E. apply Z.compare_eq_iff. lia.
  - rewrite Z.compare_lt_iff in E. apply Z.compare_lt_iff. lia.
  - rewrite Z.compare_gt_iff in E. apply Z.compare_gt_iff. lia.
Qed.

(** Years written with the same number of digits are ordered as the
    numbers they denote. *)
Lemma year_order_numeric y1 y2 :
  all_digits y1 = true → all_digits y2 = true →
  String.length y1 = String.length y2 →
  String.compare y1 y2 = (decimal_value 0 y1 ?= decimal_value 0 y2)%Z.
Proof.
  revert y2. induction y1 as [|a s IH]; intros [|b t]; try done.
  cbn [all_digits decimal_value String.length String.compare].
  intros [Ha Hs]%andb_true_iff [Hb Ht]%andb_true_iff [= Hlen].
  rewrite (decimal_value_acc _ s), (decimal_value_acc _ t), <- Hlen.
  pose proof (decimal_value_bound s Hs) as Bs.
  pose proof (decimal_value_bound t Ht) as Bt. rewrite <- Hlen in Bt.
  apply is_digit_value in Ha, Hb.
  rewrite digit_compare.
  set (p := (10 ^ Z.of_nat (String.length s))%Z) in *.
  destruct (digit_value a ?= digit_value b)%Z eqn:E.
  - apply Z.compare_eq_iff in E. rewrite IH, E by done.
    symmetry. destruct (decimal_value 0 s ?= decimal_value 0 t)%Z eqn:E2.
    + apply Z.compare_eq_iff in E2. apply Z.compare_eq_iff. lia.
    + rewrite Z.compare_lt_iff in E2. apply Z.compare_lt_iff. lia.
    + rewrite Z.compare_gt_iff in E2. apply Z.compare_gt_iff. lia.
  - rewrite Z.compare_lt_iff in E. symmetry. apply Z.compare_lt_iff. nia.
  - rewrite Z.compare_gt_iff in E. symmetry. apply Z.compare_gt_iff. nia.
Qed.

(** ** The run of [presenter] and of [main] *)

Lemma fresh_lookup_None (h : gmap loc frame) : h !! fresh (dom h) = None.
Proof. apply not_elem_of_dom, is_fresh. Qed.

Lemma presenter_run flib df ui w t roll :
  heap w !! df = Some (data_frame t roll) →
  ∃ h, presenter flib df ui w
       = (Returned tt, {| heap := h; shown := shown w ++ presenter_shows flib ui t |})
       ∧ (∀ l f, heap w !! l = Some f → h !! l = Some f)
       ∧ (∃ l, heap w !! l = None
               ∧ h !! l = Some (data_frame (selected_rows ui t)
                    (Some (rolling_mean flib (slider ui)
                             (map value_ (selected_rows ui t)))))).
Proof.
  intros Hdf. destruct w as [h0 s0]. simpl in Hdf.
  set (sel := selected_rows ui t).
  set (l1 := fresh (dom h0)).
  set (view := data_frame sel
                 (mask_rows (series_mask (selectbox ui (unique (map series_id t))) t)
                    <$> roll)).
  set (h1 := <[l1 := view]> h0).
  set (l2 := fresh (dom h1)).
  set (h2 := <[l2 := view]> h1).
  set (h3 := <[l2 := data_frame sel (Some (rolling_mean flib (slider ui) (map value_ sel)))]> h2).
  exists h3. split; [|split].
  - unfold presenter, bind, get_frame, getitem_mask, copy, set_rolling_avg,
      bind, get_frame, new_frame, set_frame, emit; simpl.
    rewrite Hdf; simpl. rewrite Hdf; simpl.
    fold l1. rewrite lookup_insert_eq; simpl.
    fold sel view h1 l2. rewrite lookup_insert_eq; simpl.
    fold h2. rewrite lookup_insert_eq; simpl.
    rewrite lookup_insert_eq; simpl.
    unfold presenter_shows. fold sel. rewrite <- !app_assoc. simpl. done.
  - intros l f Hl. unfold h3, h2, h1.
    assert (l ≠ l1) by (intros ->; unfold l1 in Hl; by rewrite fresh_lookup_None in Hl).
    assert (h1 !! l = Some f) by (unfold h1; by rewrite lookup_insert_ne).
    assert (l ≠ l2) by (intros ->; unfold l2 in *; by rewrite fresh_lookup_None in *).
    by rewrite !lookup_insert_ne.
  - exists l2. split.
    + destruct (h0 !! l2) as [f|] eqn:E; [|done]. exfalso.
      assert (l2 ≠ l1).
      { intros El. pose proof (fresh_lookup_None h1) as Hn. fold l2 in Hn.
        rewrite El in Hn. unfold h1 in Hn. by rewrite lookup_insert_eq in Hn. }
      pose proof (fresh_lookup_None h1) as Hn. fold l2 in Hn.
      unfold h1 in Hn. rewrite lookup_insert_ne in Hn by done. congruence.
    + unfold h3. by rewrite lookup_insert_eq.
Qed.

Lemma parse_series_run all_series w :
  parse_series all_series w
  = (Returned (bls_list all_series),
     {| heap := heap w; shown := shown w ++ txt_files all_series |}).
Proof.
  revert w. induction all_series as [|s rest IH]; intros [h sh]; simpl.
  - unfold ret. by rewrite app_nil_r.
  - unfold bind, emit; simpl. rewrite IH; simpl.
    unfold ret. by rewrite <- app_assoc.
Qed.

Lemma main_halts read_number flib json_data ui w :
  status json_data ≠ "REQUEST_SUCCEEDED" →
  main read_number flib json_data ui w
  = (Stopped,
     {| heap := heap w;
        shown := shown w ++
          [st_error ("Error in BLS API response: "
                       ++ default "Unknown error" (message json_data))] |}).
Proof.
  intros Hst. unfold main, bind.
  apply String.eqb_neq in Hst. rewrite Hst. simpl. done.
Qed.

Lemma main_run read_number flib json_data ui w :
  status json_data = "REQUEST_SUCCEEDED" →
  let rows := flatten json_data in
  let df := fresh (dom (heap w)) in
  let written := shown w ++ txt_files (Results json_data)
                   ++ [csv_file "bls_data.csv" csv_header rows;
                       st_dataframe_raw (take 5 rows)] in
  match transform read_number rows with
  | None =>
      main read_number flib json_data ui w
      = (Raised "ValueError",
         {| heap := <[df := raw_frame rows]> (heap w); shown := written |})
  | Some t =>
      ∃ h, main read_number flib json_data ui w
           = (Returned tt,
              {| heap := h;
                 shown := written ++ st_dataframe (take 5 t)
                            :: presenter_shows flib ui t |})
           ∧ h !! df = Some (data_frame t None)
  end.
Proof.
  intros Hst rows df written.
  assert (Hpre :
    main read_number flib json_data ui w
    = (transform_inplace read_number df ;;
       t <- get_frame df ;;
       emit (st_dataframe (take 5 (frame_rows t))) ;;
       presenter flib df ui)
      {| heap := <[df := raw_frame rows]> (heap w); shown := written |}).
  { unfold main. rewrite Hst. simpl.
    unfold bind at 1. unfold ret at 1.
    unfold bind at 1. rewrite parse_series_run.
    unfold bind at 1. unfold new_frame at 1. simpl.
    unfold bind at 1. unfold emit at 1. simpl.
    unfold bind at 1. unfold emit at 1. simpl.
    unfold written, rows, flatten, df. by rewrite <- !app_assoc. }
  assert (Hstep : ∀ k : frame → prog unit,
    (transform_inplace read_number df ;; t <- get_frame df ;; k t)
      {| heap := <[df := raw_frame rows]> (heap w); shown := written |}
    = match transform read_number rows with
      | Some t =>
          k (data_frame t None)
            {| heap := <[df := data_frame t None]>
                         (<[df := raw_frame rows]> (heap w));
               shown := written |}
      | None =>
          (Raised "ValueError",
           {| heap := <[df := raw_frame rows]> (heap w); shown := written |})
      end).
  { intros k. unfold transform_inplace.
    unfold bind at 1. unfold bind at 1. unfold get_frame at 1. simpl.
    rewrite lookup_insert_eq. cbv beta iota.
    destruct (transform read_number rows) as [t|]; [|reflexivity].
    unfold set_frame at 1. simpl.
    unfold bind at 1. unfold get_frame at 1. simpl.
    by rewrite lookup_insert_eq. }
  rewrite Hpre, Hstep. clear Hpre Hstep.
  destruct (transform read_number rows) as [t|] eqn:Ht; [|reflexivity].
  unfold bind at 1. unfold emit at 1. simpl.
  edestruct (presenter_run flib df ui) as (h & -> & Hkeep & _).
  { simpl. apply lookup_insert_eq. }
  exists h. split.
  - simpl. by rewrite <- !app_assoc.
  - apply Hkeep. simpl. apply lookup_insert_eq.
Qed.

(** C4, counterexample: the text shown is not the message of the service
    alone, whatever the fallback; a fixed prefix comes before it. *)
Lemma error_text_is_prefixed :
  status answer_failed ≠ "REQUEST_SUCCEEDED"
  ∧ ¬ ∃ fallback, shows_server_message fallback answer_failed.
Proof.
  split; [discriminate|].
  intros [fallback H].
  specialize (H read_decimal ordered_lib use_first).
  vm_compute in H. discriminate H.
Qed.

(** C4, amended: when the status is not ["REQUEST_SUCCEEDED"] the run stops
    having created no data frame and shown or written nothing but one
    error, whose text is ["Error in BLS API response: "] followed by the
    message of the service when there is one and by ["Unknown error"]
    otherwise. *)
Theorem failed_status_halts read_number flib json_data ui :
  status json_data ≠ "REQUEST_SUCCEEDED" →
  fst (main read_number flib json_data ui start) = Stopped
  ∧ heap (snd (main read_number flib json_data ui start)) = ∅
  ∧ shown (snd (main read_number flib json_data ui start))
    = [st_error ("Error in BLS API response: "
                   ++ default "Unknown error" (message json_data))].
Proof.
  intros Hst. by rewrite main_halts.
Qed.

Lemma failed_status_halts_witness :
  status answer_failed ≠ "REQUEST_SUCCEEDED"
  ∧ fst (main read_decimal ordered_lib answer_failed use_first start) = Stopped
  ∧ heap (snd (main read_decimal ordered_lib answer_failed use_first start)) = ∅
  ∧ shown (snd (main read_decimal ordered_lib answer_failed use_first start))
    = [st_error "Error in BLS API response: daily threshold reached"].
Proof.
  split; [discriminate|].
  apply (failed_status_halts read_decimal ordered_lib answer_failed use_first).
  discriminate.
Defined.

(** ** The CSV dump *)

Lemma csv_tables_txt_files all_series :
  omap (fun e => match e with csv_file _ _ t => Some t | _ => None end)
       (txt_files all_series) = [].
Proof. induction all_series as [|s rest IH]; simpl; done. Qed.

Lemma main_csv_tables read_number flib json_data ui :
  status json_data = "REQUEST_SUCCEEDED" →
  csv_tables (snd (main read_number flib json_data ui start)) = [flatten json_data].
Proof.
  intros Hst. pose proof (main_run read_number flib json_data ui start Hst) as H.
  cbv zeta in H. unfold csv_tables.
  destruct (transform read_number (flatten json_data)) as [t|].
  - destruct H as (h & -> & _). simpl.
    rewrite !omap_app, csv_tables_txt_files. reflexivity.
  - rewrite H. simpl. rewrite !omap_app, csv_tables_txt_files. reflexivity.
Qed.

Lemma rows_of_series_rows sid sid' items :
  length (rows_of sid (series_rows sid' items))
  = if decide (sid' = sid)
    then length (List.filter (fun item => is_monthly (period item)) items)
    else 0%nat.
Proof.
  unfold rows_of. induction items as [|item rest IH]; simpl.
  - by destruct (decide (sid' = sid)).
  - destruct (is_monthly (period item)); simpl; [|done].
    destruct (decide (sid' = sid)) as [E|E].
    + rewrite filter_cons_True by done. simpl. by rewrite IH.
    + rewrite filter_cons_False by done. done.
Qed.

(** C9: the table written to [bls_data.csv] is the flattened table, as it
    is before the transformation; for every series id, its number of rows
    with that id is the number of observations, over the series of the
    answer that carry the id, that pass the monthly filter. *)
Theorem csv_row_count read_number flib json_data ui sid :
  status json_data = "REQUEST_SUCCEEDED" →
  ∃ table,
    csv_tables (snd (main read_number flib json_data ui start)) = [table]
    ∧ table = flatten json_data
    ∧ length (rows_of sid table)
      = sum_list (map (fun s => length (monthly_observations s))
                      (filter (fun s => seriesID s = sid)
                              (Results json_data))).
Proof.
  intros Hst. exists (flatten json_data).
  split; [by apply main_csv_tables | split; [done|]].
  unfold flatten. induction (Results json_data) as [|s rest IH]; simpl; [done|].
  unfold rows_of in *. rewrite filter_app, length_app, IH.
  pose proof (rows_of_series_rows sid (seriesID s) (data s)) as Hs.
  unfold rows_of in Hs. rewrite Hs.
  destruct (decide (seriesID s = sid)) as [E|E].
  - rewrite filter_cons_True by done. reflexivity.
  - rewrite filter_cons_False by done. reflexivity.
Qed.

Lemma csv_row_count_witness :
  status answer_codes = "REQUEST_SUCCEEDED"
  ∧ ∃ table,
      csv_tables (snd (main read_decimal ordered_lib answer_codes use_first start))
      = [table]
      ∧ table = flatten answer_codes
      ∧ length (rows_of "CUUR0000SA0" table)
        = sum_list (map (fun s => length (monthly_observations s))
                        (filter (fun s => seriesID s = "CUUR0000SA0")
                                (Results answer_codes))).
Proof.
  split; [reflexivity|].
  apply (csv_row_count read_decimal ordered_lib answer_codes use_first "CUUR0000SA0").
  reflexivity.
Defined.

Example csv_row_count_answer_codes :
  length (rows_of "CUUR0000SA0" (flatten answer_codes)) = 2%nat.
Proof. reflexivity. Qed.

(** ** The presenter and the transformed table *)

(** C10: the presenter returns, and the object [df] holds the same frame
    after it as before -- same rows, same columns, same order; so does every
    other object that existed before.  The column [Rolling_Avg] is set on
    another object, created by the presenter, that holds the rows of the
    selected series. *)
Theorem presenter_leaves_table_unchanged flib df ui w t roll :
  heap w !! df = Some (data_frame t roll) →
  fst (presenter flib df ui w) = Returned tt
  ∧ heap (snd (presenter flib df ui w)) !! df = Some (data_frame t roll)
  ∧ (∀ l f, heap w !! l = Some f → heap (snd (presenter flib df ui w)) !! l = Some f)
  ∧ (∃ l, l ≠ df
          ∧ heap (snd (presenter flib df ui w)) !! l
            = Some (data_frame (selected_rows ui t)
                      (Some (rolling_mean flib (slider ui)
                               (map value_ (selected_rows ui t)))))).
Proof.
  intros Hdf.
  destruct (presenter_run flib df ui w t roll Hdf) as (h & -> & Hkeep & l & Hl & Hh).
  simpl. repeat split; [by apply Hkeep | exact Hkeep |].
  exists l. split; [congruence | exact Hh].
Qed.

(** ** Transformer *)

Lemma transform_row_month read_number r c :
  transform_row read_number r = Some c →
  coerced_from read_number r c.
Proof.
  unfold transform_row, coerced_from.
  destruct (month_of_period (r_period r)) as [m|]; simpl; [|done].
  intros [= <-]. simpl. repeat split.
  unfold to_numeric_coerce. by intros ->.
Qed.

Lemma transform_columns_Some read_number rows cols :
  transform_columns read_number rows = Some cols →
  Forall2 (coerced_from read_number) rows cols.
Proof.
  unfold transform_columns. rewrite mapM_Some. intros H.
  eapply Forall2_impl; [exact H|]. intros r c. apply transform_row_month.
Qed.



Lemma year_month_lt_key_compare a b :
  series_id a = series_id b → year_month_lt a b → key_compare a b = Lt.
Proof.
  intros Es H. unfold key_compare. rewrite Es, string_compare_refl.
  destruct H as [-> | [-> Hm]].
  - done.
  - rewrite string_compare_refl. by apply Z.compare_lt_iff.
Qed.

Lemma numeric_year_month_lt_text a b :
  String.length (year_ a) = String.length (year_ b) →
  numeric_year_month_lt a b → year_month_lt a b.
Proof.
  intros Hlen (Ha & Hb & Hlt).
  pose proof (year_order_numeric _ _ Ha Hb Hlen) as Hcmp.
  destruct Hlt as [Hlt | [Heq Hm]].
  - left. rewrite Hcmp. by apply Z.compare_lt_iff.
  - right. split; [|done]. apply string_compare_eq.
    rewrite Hcmp. by apply Z.compare_eq_iff.
Qed.

(** C3, counterexample: the year is a column of texts and is sorted as
    text, so the row of the year 1000 comes before the row of the year
    999 of the same series. *)
Lemma year_1000_before_999 :
  transform read_decimal (flatten answer_years) = Some table_years
  ∧ map year_ table_years = ["1000"; "999"]
  ∧ ¬ sorted_by_year_number table_years.
Proof.
  split; [reflexivity|]. split; [reflexivity|].
  intros H.
  assert (Hlt : (1 < 0)%nat); [|lia].
  eapply (H 1%nat 0%nat); [reflexivity | reflexivity | reflexivity |].
  split; [reflexivity|]. split; [reflexivity|]. left. reflexivity.
Qed.

(** C3, amended: the table the Transformer leaves is sorted by the key
    (series id, year, month), the series id and the year compared as
    strings and the month as an integer; of two rows of a series, the one
    with the smaller (year, month) pair in that order comes first, which
    is the order of the numbers whenever the two years are written with
    the same number of digits; and the sort is stable: the rows with a
    given key are in the order they had before the sort, and the table is
    a permutation of the unsorted one. *)
Theorem transformed_table_sorted read_number rows t :
  transform read_number rows = Some t →
  StronglySorted key_le t
  ∧ (∀ i j a b, t !! i = Some a → t !! j = Some b →
       series_id a = series_id b → year_month_lt a b → (i < j)%nat)
  ∧ (∀ i j a b, t !! i = Some a → t !! j = Some b →
       series_id a = series_id b →
       String.length (year_ a) = String.length (year_ b) →
       numeric_year_month_lt a b → (i < j)%nat)
  ∧ (∃ cols, transform_columns read_number rows = Some cols
             ∧ t ≡ₚ cols
             ∧ ∀ k, List.filter (key_eqb k) t = List.filter (key_eqb k) cols).
Proof.
  unfold transform. intros Ht.
  destruct (transform_columns read_number rows) as [cols|] eqn:Hc; [|done].
  injection Ht as <-.
  assert (Htext : ∀ i j a b, sort_values cols !! i = Some a →
            sort_values cols !! j = Some b →
            series_id a = series_id b → year_month_lt a b → (i < j)%nat).
  { intros i j a b Ha Hb Es Hlt.
    pose proof (year_month_lt_key_compare a b Es Hlt) as Hab.
    destruct (Nat.lt_trichotomy i j) as [Hij | [-> | Hji]]; [done | |].
    + rewrite Ha in Hb. injection Hb as ->.
      rewrite (proj2 (key_compare_eq b b)) in Hab; done.
    + pose proof (sorted_lookup_le _ _ _ _ _
                    (sort_values_sorted cols) Hji Hb Ha) as Hle.
      unfold key_le, key_leb in Hle.
      rewrite key_compare_antisym, Hab in Hle. done. }
  split; [|split; [|split]].
  - apply sort_values_sorted.
  - exact Htext.
  - intros i j a b Ha Hb Es Hlen Hlt.
    apply (Htext i j a b Ha Hb Es).
    by apply numeric_year_month_lt_text.
  - exists cols. split; [done|]. split.
    + apply sort_values_perm.
    + intros k. apply sort_values_stable.
Qed.


Lemma str_replace_absent c s :
  occurs c s = false → str_replace c "" s = s.
Proof.
  induction s as [|a s IH]; simpl; [done|].
  destruct (Ascii.eqb a c); simpl; [done|]. intros H. by rewrite IH.
Qed.

(** C8, counterexample: the period ["M0M1"] passes the filter and its month
    is 1, every ["M"] being removed; the text left by stripping the leading
    ["M"], ["0M1"], is not an integer. *)
Lemma inner_M_is_removed :
  is_monthly "M0M1" = true
  ∧ month_of_period "M0M1" = Some 1%Z
  ∧ py_int (strip_leading "M" "M0M1") = None.
Proof. repeat split. Qed.

(** C8, amended: for a kept row whose period has no ["M"] besides the
    leading one, as the codes ["M01"] ... ["M12"] have, the derived month
    is the integer read from the period without its leading ["M"]. *)
Theorem month_strips_leading_M read_number r c :
  is_monthly (r_period r) = true →
  occurs "M" (strip_leading "M" (r_period r)) = false →
  transform_row read_number r = Some c →
  py_int (strip_leading "M" (r_period r)) = Some (month c).
Proof.
  intros Hm Hocc Hrow.
  destruct (transform_row_month _ _ _ Hrow) as (_ & _ & <- & _).
  destruct (is_monthly_head _ Hm) as [rest E]. rewrite E in *.
  unfold month_of_period. simpl in *. by rewrite str_replace_absent.
Qed.

(** The months of the twelve codes. *)
Example month_of_monthly_codes :
  map month_of_period monthly_codes
  = map Some [1; 2; 3; 4; 5; 6; 7; 8; 9; 10; 11; 12]%Z.
Proof. reflexivity. Qed.

Example month_of_M08 : month_of_period "M08" = Some 8%Z.
Proof. reflexivity. Qed.

(** ** Rolling average *)










(** The example of C2, with a library that adds in order: on these values
    every addition and division is exact. *)
Example rolling_mean_example :
  Forall2 same_cell
    (rolling_mean ordered_lib 3 (numbers [10; 20; 30; 40]%Z))
    [NaN; NaN; round64 false 20; round64 false 30].
Proof. vm_compute. repeat constructor. Qed.

(** A missing or an infinite value makes the windows that hold it missing. *)
Example rolling_mean_with_infinity :
  map is_nan
    (rolling_mean ordered_lib 2
       [round64 false 1; Inf false; round64 false 3; round64 false 4; NaN;
        round64 false 6; round64 false 7])
  = [true; true; true; false; true; true; false].
Proof. vm_compute. reflexivity. Qed.

(** *** Rounding to the nearest integer *)

Lemma round_half_even_near q :
  (Qabs (inject_Z (round_half_even q) - q) <= 1 # 2)%Q.
Proof.
  destruct q as [n d]. unfold round_half_even. cbn [Qnum Qden].
  pose proof (Z.div_mod n (Z.pos d) ltac:(lia)) as Hn.
  pose proof (Z.mod_pos_bound n (Z.pos d) ltac:(lia)) as Hr.
  set (f := (n / Z.pos d)%Z) in *. set (r := (n mod Z.pos d)%Z) in *.
  apply Qabs_Qle_condition.
  assert (Hcase : ∀ z : Z,
    (2 * Z.pos d * z <= 2 * n + Z.pos d)%Z →
    (2 * n <= 2 * Z.pos d * z + Z.pos d)%Z →
    (- (1 # 2) <= inject_Z z - (n # d))%Q ∧ (inject_Z z - (n # d) <= 1 # 2)%Q).
  { intros z H1 H2. unfold Qle, Qminus, Qplus, Qopp, inject_Z.
    cbn [Qnum Qden]. split; lia. }
  destruct (2 * r <? Z.pos d)%Z eqn:E1.
  - apply Z.ltb_lt in E1. apply Hcase; nia.
  - apply Z.ltb_ge in E1. destruct (Z.pos d <? 2 * r)%Z eqn:E2.
    + apply Z.ltb_lt in E2. apply Hcase; nia.
    + apply Z.ltb_ge in E2. destruct (Z.even f); apply Hcase; nia.
Qed.

(** ** Summary metrics *)

(** *** The order of the cells *)

Lemma Qltb_lt (p q : Q) :
  match (p ?= q)%Q with Lt => true | _ => false end = true ↔ (p < q)%Q.
Proof.
  rewrite Qlt_alt. destruct (p ?= q)%Q; split; intros H; done.
Qed.

Lemma cell_ltb_trans a b c :
  cell_ltb a b = true → cell_ltb b c = true → cell_ltb a c = true.
Proof.
  destruct a as [|na|sa ma ea], b as [|nb|sb mb eb], c as [|nc|sc mc ec];
    simpl; try done;
    try (by repeat match goal with n : bool |- _ => destruct n end).
  rewrite !Qltb_lt. apply Qlt_trans.
Qed.

Lemma cell_ltb_between a b c :
  is_nan b = false → cell_ltb a c = true →
  cell_ltb a b = true ∨ cell_ltb b c = true.
Proof.
  destruct a as [|na|sa ma ea], b as [|nb|sb mb eb], c as [|nc|sc mc ec];
    simpl; try done; intros _;
    try (by repeat match goal with n : bool |- _ => destruct n end; auto).
  rewrite !Qltb_lt. intros H.
  destruct (Qlt_le_dec (Fin_value sa ma ea) (Fin_value sb mb eb)) as [Hlt|Hle];
    [by left | right]. eapply Qle_lt_trans; eauto.
Qed.

Lemma cell_ltb_irrefl a : cell_ltb a a = false.
Proof.
  destruct a as [|n|s m e]; simpl; [done | by destruct n |].
  destruct (Fin_value s m e ?= Fin_value s m e)%Q eqn:E; try done.
  apply Qlt_alt in E. by apply Qlt_irrefl in E.
Qed.

Lemma present_not_nan vs : Forall (fun v => is_nan v = false) (present vs).
Proof.
  unfold present. induction vs as [|v vs IH]; simpl; [constructor|].
  destruct (is_nan v) eqn:E; simpl; [done|]. by constructor.
Qed.

Lemma greater_not_nan x y :
  is_nan x = false → is_nan y = false → is_nan (greater x y) = false.
Proof. unfold greater. by destruct (cell_ltb x y). Qed.

Lemma smaller_not_nan x y :
  is_nan x = false → is_nan y = false → is_nan (smaller x y) = false.
Proof. unfold smaller. by destruct (cell_ltb y x). Qed.

Lemma fold_greater_maximum xs x :
  is_nan x = false → Forall (fun v => is_nan v = false) xs →
  is_maximum (fold_left greater xs x) (x :: xs).
Proof.
  intros Hx Hxs. revert x Hx.
  induction Hxs as [|y xs Hy _ IH]; intros x Hx; simpl.
  - split; [left|]. intros z [->|Hz]%elem_of_cons;
      [apply cell_ltb_irrefl | inversion Hz].
  - destruct (IH (greater x y) (greater_not_nan x y Hx Hy)) as [Hin Hall].
    split.
    + apply elem_of_cons in Hin as [-> | Hin].
      * unfold greater. destruct (cell_ltb x y); [right|]; left.
      * right. by right.
    + pose proof (Hall _ (list_elem_of_here _ _)) as Hg.
      set (m := fold_left greater xs (greater x y)) in *.
      assert (Hxy : cell_ltb m x = false ∧ cell_ltb m y = false).
      { unfold greater in Hg. destruct (cell_ltb x y) eqn:E.
        - split; [|done]. destruct (cell_ltb m x) eqn:E'; [|done].
          by rewrite (cell_ltb_trans _ _ _ E' E) in Hg.
        - split; [done|]. destruct (cell_ltb m y) eqn:E'; [|done].
          destruct (cell_ltb_between m x y Hx E') as [H|H]; congruence. }
      intros z Hz. apply elem_of_cons in Hz as [-> | Hz]; [apply Hxy|].
      apply elem_of_cons in Hz as [-> | Hz]; [apply Hxy|].
      apply Hall. by right.
Qed.

Lemma fold_smaller_minimum xs x :
  is_nan x = false → Forall (fun v => is_nan v = false) xs →
  is_minimum (fold_left smaller xs x) (x :: xs).
Proof.
  intros Hx Hxs. revert x Hx.
  induction Hxs as [|y xs Hy _ IH]; intros x Hx; simpl.
  - split; [left|]. intros z [->|Hz]%elem_of_cons;
      [apply cell_ltb_irrefl | inversion Hz].
  - destruct (IH (smaller x y) (smaller_not_nan x y Hx Hy)) as [Hin Hall].
    split.
    + apply elem_of_cons in Hin as [-> | Hin].
      * unfold smaller. destruct (cell_ltb y x); [right|]; left.
      * right. by right.
    + pose proof (Hall _ (list_elem_of_here _ _)) as Hg.
      set (m := fold_left smaller xs (smaller x y)) in *.
      assert (Hxy : cell_ltb x m = false ∧ cell_ltb y m = false).
      { unfold smaller in Hg. destruct (cell_ltb y x) eqn:E.
        - split; [|done]. destruct (cell_ltb x m) eqn:E'; [|done].
          by rewrite (cell_ltb_trans _ _ _ E E') in Hg.
        - split; [done|]. destruct (cell_ltb y m) eqn:E'; [|done].
          destruct (cell_ltb_between y x m Hx E') as [H|H]; congruence. }
      intros z Hz. apply elem_of_cons in Hz as [-> | Hz]; [apply Hxy|].
      apply elem_of_cons in Hz as [-> | Hz]; [apply Hxy|].
      apply Hall. by right.
Qed.

(** *** The text of a number has two decimal places *)

Lemma string_app_cons a (s t : string) :
  (String a s ++ t = String a (s ++ t))%string.
Proof. reflexivity. Qed.








(** The two decimal places are those of the nearest hundredth. *)
Lemma format_2f_nearest negative m e :
  ∃ n : Z,
    (Qabs (inject_Z n - magnitude m e * 100) <= 1 # 2)%Q
    ∧ format_2f (Fin negative m e)
      = ((if negative then "-" else "") ++ py_str (n / 100) ++ "."
         ++ two_digits (n mod 100))%string.
Proof.
  exists (round_half_even (magnitude m e * 100)).
  split; [apply round_half_even_near | reflexivity].
Qed.






(** The example of C6, with a library that adds in order. *)
Example metrics_example :
  let vs := numbers [10; 20; 30]%Z in
  (format_2f (series_max vs), format_2f (series_min vs),
   format_2f (series_mean ordered_lib vs)) = ("30.00", "10.00", "20.00").
Proof. vm_compute. reflexivity. Qed.

(** The mean is a float: that of 0.25 and 1e-20 is 0.125, shown as 0.12;
    an infinite value is the largest and is shown as [inf]. *)
Example metrics_of_floats :
  let vs := map (to_numeric_coerce read_decimal) ["0.25"; "1e-20"] in
  let ws := map (to_numeric_coerce read_decimal) ["1.5"; "inf"; "-"] in
  format_2f (series_mean ordered_lib vs) = "0.12"
  ∧ format_2f (series_max ws) = "inf"
  ∧ format_2f (series_min ws) = "1.50".
Proof. vm_compute. done. Qed.

(** ** The theorems on the sample answers *)

Lemma transformed_table_sorted_witness :
  transform read_decimal (flatten answer_dash) = Some table_dash
  ∧ StronglySorted key_le table_dash
  ∧ (∀ i j a b, table_dash !! i = Some a → table_dash !! j = Some b →
       series_id a = series_id b → year_month_lt a b → (i < j)%nat)
  ∧ (∀ i j a b, table_dash !! i = Some a → table_dash !! j = Some b →
       series_id a = series_id b →
       String.length (year_ a) = String.length (year_ b) →
       numeric_year_month_lt a b → (i < j)%nat)
  ∧ (∃ cols, transform_columns read_decimal (flatten answer_dash)
             = Some cols
             ∧ table_dash ≡ₚ cols
             ∧ ∀ k, List.filter (key_eqb k) table_dash
                    = List.filter (key_eqb k) cols).
Proof.
  split; [vm_compute; reflexivity|].
  apply (transformed_table_sorted read_decimal
           (flatten answer_dash) table_dash).
  vm_compute. reflexivity.
Defined.

Example table_dash_months :
  map (fun r => (year_ r, month r, is_number (value_ r))) table_dash
  = [("2011", 1%Z, true); ("2011", 3%Z, false); ("2012", 2%Z, true)].
Proof. reflexivity. Qed.


(** The value that is not numeric, [-], is the missing value of the frame
    that the run leaves, and its row is still there. *)
Example answer_dash_frame :
  ∃ t, heap (snd (main read_decimal ordered_lib answer_dash use_first start))
         !! df_address start = Some (data_frame t None)
       ∧ map (fun r => (year_month r, is_nan (value_ r))) t
         = [("2011-1", false); ("2011-3", true); ("2012-2", false)].
Proof. eexists. split; vm_compute; reflexivity. Qed.

Lemma month_strips_leading_M_witness :
  let r := mk_row "CUUR0000SA0" (obs "2011" "M08" "226.545" [∅]) in
  let c := {| series_id := "CUUR0000SA0"; year_ := "2011";
              value_ := to_numeric_coerce read_decimal "226.545"; month := 8;
              year_month := "2011-8" |} in
  is_monthly (r_period r) = true
  ∧ occurs "M" (strip_leading "M" (r_period r)) = false
  ∧ transform_row read_decimal r = Some c
  ∧ py_int (strip_leading "M" (r_period r)) = Some (month c).
Proof.
  intros r c. split; [reflexivity|]. split; [reflexivity|].
  split; [reflexivity|].
  apply (month_strips_leading_M read_decimal r c); reflexivity.
Defined.


Example metrics_answer_dash :
  metrics (snd (main read_decimal ordered_lib answer_dash use_first start))
  = [("Max Value", "227.66"); ("Min Value", "220.22");
     ("Average Value", "223.94")].
Proof. vm_compute. reflexivity. Qed.

Lemma presenter_leaves_table_unchanged_witness :
  heap world_dash !! 1%positive = Some (data_frame table_dash None)
  ∧ fst (presenter ordered_lib 1%positive use_first world_dash) = Returned tt
  ∧ heap (snd (presenter ordered_lib 1%positive use_first world_dash)) !! 1%positive
    = Some (data_frame table_dash None)
  ∧ (∀ l f, heap world_dash !! l = Some f →
            heap (snd (presenter ordered_lib 1%positive use_first world_dash)) !! l = Some f)
  ∧ (∃ l, l ≠ 1%positive
          ∧ heap (snd (presenter ordered_lib 1%positive use_first world_dash)) !! l
            = Some (data_frame (selected_rows use_first table_dash)
                      (Some (rolling_mean ordered_lib (slider use_first)
                               (map value_ (selected_rows use_first table_dash)))))).
Proof.
  split; [reflexivity|].
  apply (presenter_leaves_table_unchanged ordered_lib 1%positive use_first world_dash
           table_dash None).
  reflexivity.
Defined.

(** * Further properties of the run *)

(** ** Text files and the CSV file *)

Lemma bls_list_concat all_series :
  bls_list all_series
  = concat (map (fun s => series_rows (seriesID s) (data s)) all_series).
Proof.
  induction all_series as [|s rest IH]; simpl; [done|]. by rewrite IH.
Qed.

Lemma txt_tables_txt_files all_series :
  omap (fun e => match e with txt_file name t => Some (name, t) | _ => None end)
       (txt_files all_series)
  = map (fun s => ((seriesID s ++ ".txt")%string, series_rows (seriesID s) (data s)))
        all_series.
Proof.
  unfold txt_files.
  induction all_series as [|s rest IH]; simpl; [done|]. f_equal. exact IH.
Qed.

(** The events of a run with a successful status, up to the transformed
    frame: what comes later shows no file. *)
Lemma main_shown read_number flib json_data ui :
  status json_data = "REQUEST_SUCCEEDED" →
  ∃ later,
    shown (snd (main read_number flib json_data ui start))
    = txt_files (Results json_data)
        ++ [csv_file "bls_data.csv" csv_header (flatten json_data);
            st_dataframe_raw (take 5 (flatten json_data))]
        ++ later
    ∧ Forall (fun e => match e with
                       | txt_file _ _ | csv_file _ _ _ => False
                       | _ => True
                       end) later.
Proof.
  intros Hst. pose proof (main_run read_number flib json_data ui start Hst) as H.
  cbv zeta in H.
  destruct (transform read_number (flatten json_data)) as [t|].
  - destruct H as (h & -> & _).
    exists (st_dataframe (take 5 t) :: presenter_shows flib ui t). split.
    + simpl. by rewrite <- !app_assoc.
    + unfold presenter_shows. repeat constructor.
  - rewrite H. exists []. split.
    + reflexivity.
    + constructor.
Qed.

Lemma omap_no_file {B} (f : ui_event → option B) later :
  (∀ e, match e with txt_file _ _ | csv_file _ _ _ => False | _ => True end
        → f e = None) →
  Forall (fun e => match e with
                   | txt_file _ _ | csv_file _ _ _ => False
                   | _ => True
                   end) later →
  omap f later = [].
Proof.
  intros Hf. induction 1 as [|e l He _ IH]; [done|].
  change (omap f (e :: l))
    with (match f e with Some y => y :: omap f l | None => omap f l end).
  by rewrite (Hf e He), IH.
Qed.

(** X1: a run with a successful status writes one text file for each series
    of the answer, in the order of the answer, named after the series id and
    holding the rows kept for that series; put end to end, the tables of the
    text files are the table of the CSV file. *)
Theorem txt_files_make_csv read_number flib json_data ui :
  status json_data = "REQUEST_SUCCEEDED" →
  txt_tables (snd (main read_number flib json_data ui start))
  = map (fun s => ((seriesID s ++ ".txt")%string,
                   map (mk_row (seriesID s)) (monthly_observations s)))
        (Results json_data)
  ∧ csv_tables (snd (main read_number flib json_data ui start))
    = [concat (map snd (txt_tables (snd (main read_number flib json_data ui start))))].
Proof.
  intros Hst.
  assert (Htxt : txt_tables (snd (main read_number flib json_data ui start))
                 = map (fun s => ((seriesID s ++ ".txt")%string,
                                  series_rows (seriesID s) (data s)))
                       (Results json_data)).
  { destruct (main_shown read_number flib json_data ui Hst) as (later & E & Hl).
    unfold txt_tables. rewrite E, !omap_app, txt_tables_txt_files.
    rewrite (omap_no_file _ later); [|by intros []|done].
    simpl. by rewrite app_nil_r. }
  split.
  - rewrite Htxt. apply map_ext. intros s.
    by rewrite series_rows_filter.
  - rewrite main_csv_tables by done. rewrite Htxt. f_equal.
    unfold flatten. rewrite bls_list_concat. f_equal.
    rewrite map_map. done.
Qed.

Lemma txt_files_make_csv_witness :
  status answer_twice = "REQUEST_SUCCEEDED"
  ∧ txt_tables (snd (main read_decimal ordered_lib answer_twice use_first start))
    = map (fun s => ((seriesID s ++ ".txt")%string,
                     map (mk_row (seriesID s)) (monthly_observations s)))
          (Results answer_twice)
  ∧ csv_tables (snd (main read_decimal ordered_lib answer_twice use_first start))
    = [concat (map snd (txt_tables
                          (snd (main read_decimal ordered_lib answer_twice use_first start))))].
Proof.
  split; [reflexivity|].
  apply (txt_files_make_csv read_decimal ordered_lib answer_twice use_first). reflexivity.
Defined.

(** ** A period the filter keeps and [int] rejects *)




(** Both rows of [answer_bad_period] pass the filter. *)
Example bad_period_is_kept :
  map r_period (flatten answer_bad_period) = ["M01"; "M0A"].
Proof. reflexivity. Qed.

(** ** The select box and the rows of the selected series *)

Lemma unique_from_elem seen l x :
  x ∈ unique_from seen l ↔ x ∈ l ∧ x ∉ seen.
Proof.
  revert seen. induction l as [|y l IH]; intros seen; simpl.
  - split; [intros H; inversion H | intros [H _]; inversion H].
  - destruct (bool_decide (y ∈ seen)) eqn:E.
    + apply bool_decide_eq_true in E. rewrite IH, elem_of_cons.
      split; [intros [? ?]; auto | intros [[-> | ?] ?]; [done | auto]].
    + apply bool_decide_eq_false in E.
      rewrite !elem_of_cons, IH, elem_of_cons. split.
      * intros [-> | [? Hn]]; [auto|]. split; [auto|]. intros ?. apply Hn. auto.
      * intros [[-> | Hx] Hn]; [auto|].
        destruct (decide (x = y)) as [-> | Hne]; [auto|].
        right. split; [done|]. intros [? | ?]; done.
Qed.

Lemma unique_from_NoDup seen l : NoDup (unique_from seen l).
Proof.
  revert seen. induction l as [|y l IH]; intros seen; simpl.
  - constructor.
  - destruct (bool_decide (y ∈ seen)); [apply IH|].
    constructor; [|apply IH].
    rewrite unique_from_elem. intros [_ Hn]. apply Hn. left.
Qed.

Lemma unique_distinct (ids : list string) :
  NoDup (unique ids)
  ∧ (∀ x, x ∈ unique ids ↔ x ∈ ids)
  ∧ head (unique ids) = head ids.
Proof.
  unfold unique. split; [apply unique_from_NoDup|]. split.
  - intros x. rewrite unique_from_elem. split; [by intros [? _]|].
    intros H. split; [done|]. intros Hx. inversion Hx.
  - destruct ids as [|y l]; [done|]. cbn [unique_from].
    destruct (bool_decide (y ∈ [])) eqn:E; [|done].
    apply bool_decide_eq_true in E. inversion E.
Qed.

(** X4: the options of the select box are the series ids of the rows of
    the table, each once, starting with the id of the first row: no id is
    offered twice, none is missing, and none is offered that no row has. *)
Theorem series_list_distinct (t : list trow) :
  let series_list := unique (map series_id t) in
  NoDup series_list
  ∧ (∀ x, x ∈ series_list ↔ ∃ r, r ∈ t ∧ series_id r = x)
  ∧ head series_list = series_id <$> head t.
Proof.
  cbv zeta. destruct (unique_distinct (map series_id t)) as (Hnd & Hiff & Hh).
  split; [exact Hnd|]. split.
  - intros x. rewrite Hiff, list_elem_of_fmap. split.
    + intros (r & -> & Hr). eauto.
    + intros (r & Hr & <-). eauto.
  - rewrite Hh. by destruct t.
Qed.

Lemma mask_rows_filter {A} (f : A → bool) (l : list A) :
  mask_rows (map f l) l = List.filter f l.
Proof.
  induction l as [|x l IH]; simpl; [done|]. rewrite IH. by destruct (f x).
Qed.

Lemma selected_rows_elem ui t r :
  r ∈ selected_rows ui t
  ↔ r ∈ t ∧ Some (series_id r) = selectbox ui (unique (map series_id t)).
Proof.
  unfold selected_rows, series_mask. rewrite mask_rows_filter.
  rewrite !list_elem_of_In, filter_In, bool_decide_eq_true. done.
Qed.

(** X5: when the user picks one of the options, the filtered frame is not
    empty and holds exactly the rows of the table with the picked id. *)
Theorem selected_rows_of_choice ui t s :
  selectbox ui (unique (map series_id t)) = Some s →
  s ∈ unique (map series_id t) →
  selected_rows ui t ≠ []
  ∧ ∀ r, r ∈ selected_rows ui t ↔ r ∈ t ∧ series_id r = s.
Proof.
  intros Hsel Hopt.
  assert (Hrows : ∀ r, r ∈ selected_rows ui t ↔ r ∈ t ∧ series_id r = s).
  { intros r. rewrite selected_rows_elem, Hsel. split.
    - intros [? [= ?]]. done.
    - intros [? ->]. done. }
  split; [|exact Hrows].
  destruct (unique_distinct (map series_id t)) as (_ & Hiff & _).
  apply (proj1 (Hiff s)) in Hopt. clear Hiff.
  apply list_elem_of_fmap in Hopt as (r & -> & Hr).
  intros E. assert (Hin : r ∈ selected_rows ui t) by (by apply Hrows).
  rewrite E in Hin. inversion Hin.
Qed.

Lemma selected_rows_of_choice_witness :
  selectbox use_first (unique (map series_id table_dash)) = Some "CUUR0000SA0"
  ∧ "CUUR0000SA0" ∈ unique (map series_id table_dash)
  ∧ selected_rows use_first table_dash ≠ []
  ∧ ∀ r, r ∈ selected_rows use_first table_dash
         ↔ r ∈ table_dash ∧ series_id r = "CUUR0000SA0".
Proof.
  split; [reflexivity|].
  split; [vm_compute; apply list_elem_of_here|].
  apply (selected_rows_of_choice use_first table_dash "CUUR0000SA0").
  - reflexivity.
  - vm_compute. apply list_elem_of_here.
Defined.

Lemma filter_StronglySorted {A} (R : A → A → Prop) (f : A → bool) l :
  StronglySorted R l → StronglySorted R (List.filter f l).
Proof.
  induction 1 as [|x l Hs IH Hall]; simpl; [constructor|].
  destruct (f x); [|done]. constructor; [done|].
  rewrite Forall_forall in *. intros y Hy.
  apply Hall. apply list_elem_of_In. apply list_elem_of_In in Hy.
  apply filter_In in Hy. tauto.
Qed.

(** X6: the rows of the selected series keep the order of the sort.  After
    a transformation that returns, the rows of the filtered frame are all
    of one series, and of two of them the later one never has the smaller
    (year, month) pair, the years compared as the texts they are; when the
    two years are written with the same number of digits, the later row
    never has the earlier (year, month), so the charts are then drawn from
    the earliest point to the latest. *)
Theorem selected_rows_in_time_order read_number rows t ui i j a b :
  transform read_number rows = Some t →
  selected_rows ui t !! i = Some a →
  selected_rows ui t !! j = Some b →
  (i < j)%nat →
  series_id a = series_id b ∧ ¬ year_month_lt b a
  ∧ (String.length (year_ a) = String.length (year_ b) →
     ¬ numeric_year_month_lt b a).
Proof.
  intros Ht Ha Hb Hij.
  assert (Hsorted : StronglySorted key_le t).
  { unfold transform in Ht.
    destruct (transform_columns read_number rows) as [cols|]; [|done].
    injection Ht as <-. apply sort_values_sorted. }
  assert (Hsel : StronglySorted key_le (selected_rows ui t)).
  { unfold selected_rows, series_mask. rewrite mask_rows_filter.
    by apply filter_StronglySorted. }
  pose proof (sorted_lookup_le _ _ _ _ _ Hsel Hij Ha Hb) as Hle.
  assert (Es : series_id a = series_id b).
  { apply list_elem_of_lookup_2 in Ha, Hb.
    apply selected_rows_elem in Ha as [_ Ea], Hb as [_ Eb]. congruence. }
  assert (Htext : ¬ year_month_lt b a).
  { intros Hlt.
    pose proof (year_month_lt_key_compare b a (eq_sym Es) Hlt) as Hba.
    unfold key_le, key_leb in Hle.
    rewrite key_compare_antisym, Hba in Hle. done. }
  split; [done|]. split; [done|].
  intros Hlen Hlt. apply Htext.
  by apply numeric_year_month_lt_text.
Qed.

Lemma selected_rows_in_time_order_witness :
  let a := {| series_id := "CUUR0000SA0"; year_ := "2011";
              value_ := to_numeric_coerce read_decimal "220.223"; month := 1;
              year_month := "2011-1" |} in
  let b := {| series_id := "CUUR0000SA0"; year_ := "2011";
              value_ := NaN; month := 3; year_month := "2011-3" |} in
  transform read_decimal (flatten answer_dash) = Some table_dash
  ∧ selected_rows use_first table_dash !! 0%nat = Some a
  ∧ selected_rows use_first table_dash !! 1%nat = Some b
  ∧ (0 < 1)%nat
  ∧ series_id a = series_id b ∧ ¬ year_month_lt b a
  ∧ (String.length (year_ a) = String.length (year_ b) →
     ¬ numeric_year_month_lt b a).
Proof.
  intros a b.
  split; [vm_compute; reflexivity|]. split; [vm_compute; reflexivity|].
  split; [vm_compute; reflexivity|].
  split; [lia|].
  apply (selected_rows_in_time_order read_decimal (flatten answer_dash)
           table_dash use_first 0 1 a b).
  - vm_compute. reflexivity.
  - vm_compute. reflexivity.
  - vm_compute. reflexivity.
  - lia.
Defined.

(** With years of different lengths the order of the texts is not that of
    the numbers: the year 1000 is drawn before the year 999. *)
Example selected_rows_years :
  map year_month (selected_rows use_first table_years) = ["1000-1"; "999-1"].
Proof. vm_compute. reflexivity. Qed.

(** ** The year-month label *)

Lemma to_int_not_nil z : Z.to_int z ≠ Decimal.Pos Decimal.Nil
                         ∧ Z.to_int z ≠ Decimal.Neg Decimal.Nil.
Proof.
  split; intros E; pose proof (f_equal Z.of_int E) as E';
    rewrite DecimalZ.of_to in E'; vm_compute in E'; subst z;
    vm_compute in E; discriminate E.
Qed.

Lemma py_str_inj z1 z2 : py_str z1 = py_str z2 → z1 = z2.
Proof.
  unfold py_str. intros E. apply DecimalZ.to_int_inj.
  destruct (to_int_not_nil z1) as [P1 N1], (to_int_not_nil z2) as [P2 N2].
  pose proof (NilZero.isi _ P1 N1) as H1.
  pose proof (NilZero.isi _ P2 N2) as H2.
  rewrite E in H1. congruence.
Qed.

Lemma string_app_nil (t : string) : ("" ++ t)%string = t.
Proof. reflexivity. Qed.

Lemma split_at_dash (y1 y2 s1 s2 : string) :
  occurs "-" y1 = false → occurs "-" y2 = false →
  (y1 ++ String "-" s1 = y2 ++ String "-" s2)%string → y1 = y2 ∧ s1 = s2.
Proof.
  revert y2. induction y1 as [|a y1 IH]; intros [|b y2] H1 H2 E.
  - rewrite !string_app_nil in E. by injection E as ->.
  - rewrite string_app_nil, (string_app_cons b y2) in E.
    injection E as <- _. simpl in H2. done.
  - rewrite string_app_nil, (string_app_cons a y1) in E.
    injection E as -> _. simpl in H1. done.
  - rewrite (string_app_cons a y1), (string_app_cons b y2) in E.
    injection E as -> E.
    simpl in H1, H2. apply orb_false_elim in H1 as [_ H1], H2 as [_ H2].
    destruct (IH y2 H1 H2 E) as [-> ->]. done.
Qed.

(** X7: the label [Year-Month] tells the year and the month apart: two
    rows whose years hold no ["-"] have the same label only when they have
    the same year and the same month.  The month is written without a
    leading zero. *)
Theorem year_month_label_inj y1 m1 y2 m2 :
  occurs "-" y1 = false → occurs "-" y2 = false →
  year_month_label y1 m1 = year_month_label y2 m2 →
  y1 = y2 ∧ m1 = m2.
Proof.
  unfold year_month_label. intros H1 H2 E.
  change ("-" ++ py_str m1)%string with (String "-" (py_str m1)) in E.
  change ("-" ++ py_str m2)%string with (String "-" (py_str m2)) in E.
  destruct (split_at_dash _ _ _ _ H1 H2 E) as [-> Em].
  split; [done|]. by apply py_str_inj.
Qed.

Lemma year_month_label_inj_witness :
  occurs "-" "2011" = false ∧ occurs "-" "2011" = false
  ∧ year_month_label "2011" 8 = year_month_label "2011" 8
  ∧ "2011" = "2011" ∧ 8%Z = 8%Z.
Proof.
  split; [reflexivity|]. split; [reflexivity|]. split; [reflexivity|].
  apply (year_month_label_inj "2011" 8 "2011" 8); reflexivity.
Defined.

Example year_month_label_M08 : year_month_label "2011" 8 = "2011-8".
Proof. reflexivity. Qed.
(** ** The two extremes together *)

(** X9: the largest and the smallest value shown are consistent: when the
    series has a value that is not missing, both are values of the series
    that are not missing, and the smallest is not above the largest. *)
Theorem min_not_above_max vs :
  present vs ≠ [] →
  series_min vs ∈ present vs ∧ series_max vs ∈ present vs
  ∧ cell_ltb (series_max vs) (series_min vs) = false.
Proof.
  intros Hne. unfold series_min, series_max.
  pose proof (present_not_nan vs) as Hnn.
  destruct (present vs) as [|x xs]; [done|].
  apply Forall_cons in Hnn as [Hx Hxs].
  destruct (fold_smaller_minimum xs x Hx Hxs) as [Hmin _].
  destruct (fold_greater_maximum xs x Hx Hxs) as [Hmax Hall].
  split; [done|]. split; [done|]. by apply Hall.
Qed.

Lemma min_not_above_max_witness :
  let vs := map (to_numeric_coerce read_decimal) ["20.5"; "-"; "inf"; "3"] in
  present vs ≠ []
  ∧ series_min vs ∈ present vs ∧ series_max vs ∈ present vs
  ∧ cell_ltb (series_max vs) (series_min vs) = false.
Proof.
  intros vs. split; [vm_compute; discriminate|].
  apply (min_not_above_max vs). vm_compute. discriminate.
Defined.

(** ** Months of three-character periods *)

Lemma all_ascii_complete a : a ∈ all_ascii.
Proof.
  unfold all_ascii. apply list_elem_of_fmap. exists (nat_of_ascii a).
  split; [by rewrite ascii_nat_embedding|].
  apply elem_of_seq. pose proof (nat_ascii_bounded a). lia.
Qed.

Lemma month_in_year_all :
  forallb (fun a => forallb (month_in_year a) all_ascii) all_ascii = true.
Proof. vm_compute. reflexivity. Qed.

(** X10: for a period of three characters that the filter keeps and whose
    month can be derived, the month is between 0 and 12, and between 1 and
    12 when the last character is a digit.  The month 0 is possible: the
    period ["M0M"] is kept and every ["M"] is removed from it. *)
Theorem three_character_month p m :
  String.length p = 3%nat → is_monthly p = true →
  month_of_period p = Some m →
  (0 <= m <= 12)%Z
  ∧ (∀ c, String.get 2 p = Some c → is_digit c = true → (1 <= m)%Z).
Proof.
  intros Hlen Hkept Hm.
  destruct (is_monthly_head _ Hkept) as [rest ->].
  destruct rest as [|a [|b [|c rest]]]; try discriminate Hlen.
  pose proof month_in_year_all as Hall.
  rewrite forallb_forall in Hall.
  specialize (Hall a (proj1 (list_elem_of_In _ _) (all_ascii_complete a))).
  rewrite forallb_forall in Hall.
  specialize (Hall b (proj1 (list_elem_of_In _ _) (all_ascii_complete b))).
  unfold month_in_year in Hall. rewrite Hkept, Hm in Hall.
  apply andb_true_iff in Hall as [H12 Hd].
  apply andb_true_iff in H12 as [H1 H2].
  apply Z.leb_le in H1, H2. split; [lia|].
  intros c [= <-] Hc. rewrite Hc in Hd. simpl in Hd. by apply Z.leb_le in Hd.
Qed.

Lemma three_character_month_witness :
  String.length "M08" = 3%nat ∧ is_monthly "M08" = true
  ∧ month_of_period "M08" = Some 8%Z
  ∧ (0 <= 8 <= 12)%Z
  ∧ (∀ c, String.get 2 "M08" = Some c → is_digit c = true → (1 <= 8)%Z).
Proof.
  split; [reflexivity|]. split; [reflexivity|]. split; [reflexivity|].
  apply (three_character_month "M08" 8); reflexivity.
Defined.

(** The month 0, and a longer period whose month is beyond 12. *)
Example odd_period_months :
  is_monthly "M0M" = true ∧ month_of_period "M0M" = Some 0%Z
  ∧ is_monthly "M0999" = true ∧ month_of_period "M0999" = Some 999%Z.
Proof. repeat split. Qed.

(** ** Which series the select box offers *)

Lemma transform_series_ids read_number rows t x :
  transform read_number rows = Some t →
  x ∈ map series_id t ↔ x ∈ map r_series_id rows.
Proof.
  unfold transform. intros Ht.
  destruct (transform_columns read_number rows) as [cols|] eqn:Hc; [|done].
  injection Ht as <-.
  assert (E : map series_id cols = map r_series_id rows).
  { pose proof (transform_columns_Some _ _ _ Hc) as HF. clear Hc.
    induction HF as [|r c rs cs (Es & _) _ IH]; simpl; [done|].
    f_equal; [exact Es | exact IH]. }
  rewrite <- E. rewrite !list_elem_of_fmap.
  split; intros (r & -> & Hr); exists r; (split; [done|]).
  - by rewrite <- (sort_values_perm cols).
  - by rewrite (sort_values_perm cols).
Qed.

Lemma flatten_series_ids json_data x :
  x ∈ map r_series_id (flatten json_data)
  ↔ ∃ s, s ∈ Results json_data ∧ seriesID s = x ∧ monthly_observations s ≠ [].
Proof.
  rewrite list_elem_of_fmap. unfold flatten. split.
  - intros (r & -> & Hr). apply bls_list_elem in Hr as (s & Hs & Hr).
    exists s. split; [done|].
    apply series_rows_elem in Hr as (item & Hitem & Hm & ->).
    split; [done|]. unfold monthly_observations. intros E.
    assert (Hin : In item (List.filter (fun i => is_monthly (period i)) (data s))).
    { apply filter_In. split; [by apply list_elem_of_In | done]. }
    rewrite E in Hin. inversion Hin.
  - intros (s & Hs & <- & Hne). unfold monthly_observations in Hne.
    destruct (List.filter (fun i => is_monthly (period i)) (data s))
      as [|item l] eqn:E; [done|].
    assert (Hin : In item (List.filter (fun i => is_monthly (period i)) (data s)))
      by (rewrite E; left; done).
    apply filter_In in Hin as [Hin Hm].
    exists (mk_row (seriesID s) item). split; [done|].
    apply bls_list_elem. exists s. split; [done|].
    apply series_rows_elem. exists item.
    split; [by apply list_elem_of_In | done].
Qed.

(** X11: after a transformation that returns, the select box offers the
    id of a series exactly when that series of the answer has at least one
    observation that passes the monthly filter.  A series without such an
    observation gets its text file but cannot be selected. *)
Theorem options_are_series_with_rows read_number json_data t x :
  transform read_number (flatten json_data) = Some t →
  x ∈ unique (map series_id t)
  ↔ ∃ s, s ∈ Results json_data ∧ seriesID s = x ∧ monthly_observations s ≠ [].
Proof.
  intros Ht.
  destruct (unique_distinct (map series_id t)) as (_ & Hiff & _).
  rewrite Hiff, (transform_series_ids _ _ _ _ Ht).
  apply flatten_series_ids.
Qed.

Lemma options_are_series_with_rows_witness :
  transform read_decimal (flatten answer_dash) = Some table_dash
  ∧ ("CUUR0000SA0" ∈ unique (map series_id table_dash)
     ↔ ∃ s, s ∈ Results answer_dash ∧ seriesID s = "CUUR0000SA0"
            ∧ monthly_observations s ≠ []).
Proof.
  split; [reflexivity|].
  apply (options_are_series_with_rows read_decimal answer_dash table_dash
           "CUUR0000SA0").
  reflexivity.
Defined.

Lemma key_le_series_id a b :
  key_le a b → String.leb (series_id a) (series_id b) = true.
Proof.
  unfold key_le, key_leb, key_compare, String.leb.
  by destruct (String.compare (series_id a) (series_id b)).
Qed.

(** X12: the first option of the select box, the default choice, is the
    smallest series id of the table in the order of strings. *)
Theorem default_series_is_smallest read_number rows t s r :
  transform read_number rows = Some t →
  head (unique (map series_id t)) = Some s →
  r ∈ t →
  String.leb s (series_id r) = true.
Proof.
  intros Ht Hhead Hr.
  assert (Hsorted : StronglySorted key_le t).
  { unfold transform in Ht.
    destruct (transform_columns read_number rows) as [cols|]; [|done].
    injection Ht as <-. apply sort_values_sorted. }
  destruct (unique_distinct (map series_id t)) as (_ & _ & Hh).
  rewrite Hh in Hhead. destruct t as [|r0 t]; [done|].
  injection Hhead as <-.
  apply StronglySorted_inv in Hsorted as [_ Hall].
  apply elem_of_cons in Hr as [-> | Hr].
  - unfold String.leb. by rewrite string_compare_refl.
  - rewrite Forall_forall in Hall. by apply key_le_series_id, Hall.
Qed.

Lemma default_series_is_smallest_witness :
  let r := {| series_id := "CUUR0000SA0"; year_ := "2011";
              value_ := NaN; month := 3; year_month := "2011-3" |} in
  transform read_decimal (flatten answer_dash) = Some table_dash
  ∧ head (unique (map series_id table_dash)) = Some "CUUR0000SA0"
  ∧ r ∈ table_dash
  ∧ String.leb "CUUR0000SA0" (series_id r) = true.
Proof.
  intros r.
  assert (Hr : r ∈ table_dash).
  { vm_compute. apply list_elem_of_further, list_elem_of_here. }
  split; [reflexivity|]. split; [reflexivity|]. split; [exact Hr|].
  apply (default_series_is_smallest read_decimal (flatten answer_dash)
           table_dash "CUUR0000SA0" r).
  - reflexivity.
  - reflexivity.
  - exact Hr.
Defined.

(** ** Footnotes without a text *)

(** X13: when no footnote of an observation has a text -- the service
    sends the list with one empty object for an observation without
    footnote -- the footnote field of the row is the empty string. *)
Theorem footnotes_without_text item :
  Forall (fun foot : footnote => foot !! "text" = None) (footnotes item) →
  join_footnotes item = "".
Proof.
  unfold join_footnotes. rewrite footnote_texts_omap. intros H.
  assert (E : omap (fun foot : footnote => foot !! "text") (footnotes item) = []).
  { induction H as [|foot rest Hf _ IH]; [done|].
    change (omap (fun foot : footnote => foot !! "text") (foot :: rest))
      with (match foot !! "text" with
            | Some y => y :: omap (fun foot : footnote => foot !! "text") rest
            | None => omap (fun foot : footnote => foot !! "text") rest
            end).
    by rewrite Hf. }
  by rewrite E.
Qed.

Lemma footnotes_without_text_witness :
  let item := obs "2011" "M01" "220.223" [∅; {[ "code" := "I" ]}] in
  Forall (fun foot : footnote => foot !! "text" = None) (footnotes item)
  ∧ join_footnotes item = "".
Proof.
  intros item.
  assert (H : Forall (fun foot : footnote => foot !! "text" = None)
                     (footnotes item)).
  { repeat constructor. }
  split; [exact H|].
  apply (footnotes_without_text item). exact H.
Defined.
